(** * RAG_Chroma_Gemini: the retrieval-augmented answer pipeline and its
      readiness gate

    A shallow embedding of [app.py] (collection acquisition, indexing,
    retrieval, prompt assembly, generation) and of [api_server.py] (the
    readiness flag, the initialization lock, the Flask request hooks and
    views), followed by the properties the specification states about them.

    Conventions.
    - The three hosted services (the Chroma store, the embedding provider and
      the Gemini model) and the file system are not part of the repository:
      their answers are fields of an [Externals] record, and every call made
      to them is recorded in the world's [trace] (most recent call first).
    - Python exceptions are the [Raise] outcome of a small state-and-error
      monad over the process's [World]; state written before an exception is
      kept, as in Python.
    - [print] statements of [app.py] are not modelled; those of
      [api_server.py] that mark the initialization sequence are server
      events. *)

From Stdlib Require Import QArith_base.
From stdpp Require Import base option list strings pretty.

Open Scope string_scope.

(** ** Strings of the source *)

Module Py.

(** The newline and the double quote, as characters of the source text. *)
Definition nl : string := String (Ascii.ascii_of_nat 10) EmptyString.
Definition dq : string := String (Ascii.ascii_of_nat 34) EmptyString.

(** [sep.join(xs)] *)
Fixpoint join (sep : string) (xs : list string) : string :=
  match xs with
  | [] => EmptyString
  | [x] => x
  | x :: rest => x +:+ sep +:+ join sep rest
  end.

(** Truthiness of a [str] and of a [list]: non-empty. *)
Definition truthy_str (s : string) : bool :=
  match s with EmptyString => false | String _ _ => true end.

Definition truthy_list {A} (l : list A) : bool :=
  match l with [] => false | _ :: _ => true end.

End Py.

(** ** Configuration constants of [app.py] (lines 22-31) *)

Definition CHROMA_DB_PATH : string := "./chroma_db".
Definition COLLECTION_NAME : string := "pride_and_prejudice_knowledge".
Definition KNOWLEDGE_FILE : string := "data/knowledgebase.txt".
Definition CHUNK_SIZE : nat := 700.
Definition CHUNK_OVERLAP : nat := 70.
Definition N_RESULTS_RETRIEVAL : nat := 10.
Definition GEMINI_MODEL : string := "gemini-1.5-flash".
Definition GEMINI_TEMPERATURE : Q := (3 # 10)%Q.

(** ** Data model *)

(** A stored chunk: its identifier and its text. *)
Definition Store : Type := list (string * string).

(** The Python object returned by [get_or_create_collection]: a handle on the
    named persistent collection.  [coll_obj] is the object's identity. *)
Record Collection : Type := mkCollection {
  coll_obj : nat;
  coll_name : string
}.

(** The Python object returned by [genai.GenerativeModel]. *)
Record Model : Type := mkModel {
  model_obj : nat;
  model_name : string
}.

Global Instance Collection_eq_dec : EqDecision Collection.
Proof. solve_decision. Defined.

Global Instance Model_eq_dec : EqDecision Model.
Proof. solve_decision. Defined.

(** Operations on the persistent store that may fail. *)
Inductive storage_op : Type :=
  | OpOpen | OpGetOrCreate | OpCount | OpAdd | OpQuery.

(** Answer of an external service. *)
Inductive result (A : Type) : Type :=
  | Ok (a : A)
  | Err (msg : string).
Arguments Ok {A} a.
Arguments Err {A} msg.

(** Exceptions, by the call that raises them. *)
Inductive exn : Type :=
  | StorageError (op : storage_op) (msg : string)
  | EmbeddingError (msg : string)
  | FileError (msg : string)
  | GenerationError (msg : string).

(** Calls made to the outside, in the order of the source. *)
Inductive event : Type :=
  | EvEmbeddingFunction                         (* app.py:60 *)
  | EvPersistentClient (path : string)          (* app.py:61 *)
  | EvGetOrCreate (name : string)               (* app.py:62 *)
  | EvCount                                     (* app.py:67, 80 *)
  | EvReadFile (path : string)                  (* app.py:41 *)
  | EvSplit (size overlap : nat)                (* app.py:50 *)
  | EvAdd (ids docs : list string)              (* app.py:72 *)
  | EvQuery (q : string) (n : nat)              (* app.py:88 *)
  | EvGenerativeModel (name : string)           (* app.py:100 *)
  | EvGenerate (prompt : string) (r : result string). (* app.py:148 *)

Global Instance storage_op_eq_dec : EqDecision storage_op.
Proof. solve_decision. Defined.

Global Instance result_eq_dec {A} `{EqDecision A} : EqDecision (result A).
Proof. solve_decision. Defined.

Global Instance event_eq_dec : EqDecision event.
Proof. solve_decision. Defined.

(** The services the program calls.  [ext_rank] is the nearest-neighbour
    answer of the store: the value of [results['documents']]. *)
Record Externals : Type := mkExternals {
  ext_storage : storage_op -> result unit;
  ext_embed : list string -> result unit;
  ext_read_file : string -> result string;
  ext_split_text : string -> nat -> nat -> list string;
  ext_rank : Store -> string -> nat -> option (list (list string));
  ext_generate : string -> Q -> result string
}.

(** The state of one process together with the durable storage it works on.
    [chroma_collection] and [gemini_model] are the module globals
    [_chroma_collection] and [_gemini_model] of app.py:34-35; [storage] is
    the named collection under [CHROMA_DB_PATH] ([None]: not created yet). *)
Record World : Type := mkWorld {
  chroma_collection : option Collection;
  gemini_model : option Model;
  storage : option Store;
  next_obj : nat;
  trace : list event
}.

(** A process that starts on the given durable storage. *)
Definition fresh_process (st : option Store) : World :=
  mkWorld None None st 0 [].

(** A restart: module globals are lost, the storage persists. *)
Definition restart (w : World) : World :=
  fresh_process (storage w).

(** The number of chunks in the collection: what [collection.count()]
    reads. *)
Definition chunk_count (w : World) : nat :=
  from_option length 0 (storage w).

(** ** The state-and-exception monad *)

Inductive outcome (A : Type) : Type :=
  | Return (a : A)
  | Raise (e : exn).
Arguments Return {A} a.
Arguments Raise {A} e.

Definition M (A : Type) : Type := World -> outcome A * World.

Definition ret {A} (a : A) : M A := fun w => (Return a, w).

Definition raise {A} (e : exn) : M A := fun w => (Raise e, w).

Definition bind {A B} (m : M A) (k : A -> M B) : M B :=
  fun w =>
    match m w with
    | (Return a, w') => k a w'
    | (Raise e, w') => (Raise e, w')
    end.

(** [try: m  except Exception as e: h e] *)
Definition try_except {A} (m : M A) (h : exn -> M A) : M A :=
  fun w =>
    match m w with
    | (Return a, w') => (Return a, w')
    | (Raise e, w') => h e w'
    end.

Notation "'let*' x ':=' m 'in' k" := (bind m (fun x => k))
  (at level 10, x name, m at level 100, k at level 200).

Definition emit (e : event) : M unit :=
  fun w => (Return tt,
            mkWorld (chroma_collection w) (gemini_model w) (storage w)
                    (next_obj w) (e :: trace w)).

Definition lift_result {A} (mk : string -> exn) (r : result A) : M A :=
  match r with
  | Ok a => ret a
  | Err msg => raise (mk msg)
  end.

Definition new_obj : M nat :=
  fun w => (Return (next_obj w),
            mkWorld (chroma_collection w) (gemini_model w) (storage w)
                    (S (next_obj w)) (trace w)).

Definition get_storage : M (option Store) :=
  fun w => (Return (storage w), w).

Definition put_storage (st : Store) : M unit :=
  fun w => (Return tt,
            mkWorld (chroma_collection w) (gemini_model w) (Some st)
                    (next_obj w) (trace w)).

(** ** app.py *)

Section App.

Variable env : Externals.

(** *** The Chroma client as the program uses it *)

Definition storage_call (op : storage_op) : M unit :=
  lift_result (StorageError op) (ext_storage env op).

(** [embedding_functions.GoogleGenerativeAiEmbeddingFunction(...)] builds a
    local object; the provider is contacted when texts are embedded. *)
Definition embedding_function : M unit :=
  emit EvEmbeddingFunction.

Definition embed (texts : list string) : M unit :=
  lift_result EmbeddingError (ext_embed env texts).

(** [chromadb.PersistentClient(path=...)] *)
Definition persistent_client (path : string) : M unit :=
  let* _ := emit (EvPersistentClient path) in
  storage_call OpOpen.

(** [client.get_or_create_collection(name=..., embedding_function=...)]:
    an absent collection is created empty. *)
Definition get_or_create_collection (name : string) : M Collection :=
  let* _ := emit (EvGetOrCreate name) in
  let* _ := storage_call OpGetOrCreate in
  let* st := get_storage in
  let* _ := match st with
            | Some _ => ret tt
            | None => put_storage []
            end in
  let* o := new_obj in
  ret (mkCollection o name).

Definition the_store : M Store :=
  let* st := get_storage in
  match st with
  | Some s => ret s
  | None => raise (StorageError OpGetOrCreate "collection does not exist")
  end.

(** [collection.count()] *)
Definition coll_count (c : Collection) : M nat :=
  let* _ := emit EvCount in
  let* _ := storage_call OpCount in
  let* s := the_store in
  ret (length s).

(** [collection.add(documents=..., ids=...)]: the documents are embedded,
    then stored under their identifiers. *)
Definition coll_add (c : Collection) (documents ids : list string) : M unit :=
  let* _ := emit (EvAdd ids documents) in
  let* _ := storage_call OpAdd in
  let* _ := embed documents in
  let* s := the_store in
  put_storage (s ++ zip ids documents)%list.

(** [collection.query(query_texts=[q], n_results=n)], reduced to the
    ['documents'] entry of its answer. *)
Definition coll_query (c : Collection) (q : string) (n : nat)
  : M (option (list (list string))) :=
  let* _ := emit (EvQuery q n) in
  let* _ := storage_call OpQuery in
  let* _ := embed [q] in
  let* s := the_store in
  ret (ext_rank env s q n).

(** *** app.py:38-52 *)
Definition load_and_chunk_document
    (file_path : string) (chunk_size chunk_overlap : nat)
  : M (list string) :=
  let* _ := emit (EvReadFile file_path) in
  let* text := lift_result FileError (ext_read_file env file_path) in
  let* _ := emit (EvSplit chunk_size chunk_overlap) in
  ret (ext_split_text env text chunk_size chunk_overlap).

(** [[f"doc_{i}" for i in range(n)]], app.py:71 *)
Definition doc_ids (n : nat) : list string :=
  (fun i : nat => "doc_" +:+ pretty i) <$> seq 0 n.

(** The indexing step, app.py:67-80. *)
Definition index_if_empty (collection : Collection) : M unit :=
  let* n := coll_count collection in
  if Nat.eqb n 0 then
    let* document_chunks :=
      load_and_chunk_document KNOWLEDGE_FILE CHUNK_SIZE CHUNK_OVERLAP in
    if Py.truthy_list document_chunks then
      let ids := doc_ids (length document_chunks) in
      coll_add collection document_chunks ids
    else ret tt
  else
    (* the message of line 80 counts once more *)
    let* _ := coll_count collection in
    ret tt.

Definition set_chroma_collection (c : Collection) : M unit :=
  fun w => (Return tt,
            mkWorld (Some c) (gemini_model w) (storage w)
                    (next_obj w) (trace w)).

Definition set_gemini_model (m : Model) : M unit :=
  fun w => (Return tt,
            mkWorld (chroma_collection w) (Some m) (storage w)
                    (next_obj w) (trace w)).

(** *** app.py:55-82 *)
Definition get_chroma_collection : M Collection :=
  fun w =>
    match chroma_collection w with
    | Some c => (Return c, w)
    | None =>
        (let* _ := embedding_function in
         let* _ := persistent_client CHROMA_DB_PATH in
         let* collection := get_or_create_collection COLLECTION_NAME in
         let* _ := index_if_empty collection in
         let* _ := set_chroma_collection collection in
         ret collection) w
    end.

(** *** app.py:85-92 *)
Definition retrieve_relevant_documents
    (query : string) (collection : Collection) (n_results : nat)
  : M (list string) :=
  let* documents := coll_query collection query n_results in
  ret (match documents with
       | Some (first :: _) => first
       | _ => []
       end).

(** *** app.py:95-101 *)
Definition get_gemini_model : M Model :=
  fun w =>
    match gemini_model w with
    | Some m => (Return m, w)
    | None =>
        (let* _ := emit (EvGenerativeModel GEMINI_MODEL) in
         let* o := new_obj in
         let m := mkModel o GEMINI_MODEL in
         let* _ := set_gemini_model m in
         ret m) w
    end.

(** [model.generate_content(prompt, ...)] followed by [response.text]. *)
Definition generate_content (model : Model) (prompt : string) (temperature : Q)
  : M string :=
  let r := ext_generate env prompt temperature in
  let* _ := emit (EvGenerate prompt r) in
  lift_result GenerationError r.

(** *** app.py:104-157 *)

(** app.py:125 *)
Definition context_of (retrieved_docs : list string) : string :=
  if Py.truthy_list retrieved_docs
  then Py.join Py.nl retrieved_docs
  else EmptyString.

Definition no_context : string :=
  "No specific context was provided from the knowledge base.".

(** The expression in the context slot, app.py:136 *)
Definition context_slot (context : string) : string :=
  if Py.truthy_str context then context else no_context.

Definition cannot_find : string :=
  "I cannot find the answer to that question in the provided information.".

(** The text of the f-string before the context slot, app.py:128-136 *)
Definition prompt_head : string :=
  Py.nl +:+
  "    You are an AI assistant tasked with answering questions based on the provided text." +:+ Py.nl +:+
  "    Please use the context below to answer the question thoroughly and accurately." +:+ Py.nl +:+
  "    If the answer is not available or cannot be reasonably inferred from the provided context," +:+ Py.nl +:+
  "    you must state clearly and concisely: " +:+ Py.dq +:+ cannot_find +:+ Py.dq +:+ Py.nl +:+
  "    Do not introduce any information that is not present in the context." +:+ Py.nl +:+
  Py.nl +:+
  "    Context:" +:+ Py.nl +:+
  "    ".

(** The text of the f-string after the context slot, app.py:136-141 *)
Definition prompt_tail (query : string) : string :=
  Py.nl +:+
  Py.nl +:+
  "    Question: " +:+ query +:+ Py.nl +:+
  Py.nl +:+
  "    Answer:" +:+ Py.nl +:+
  "    ".

(** app.py:128-141 *)
Definition build_prompt (context query : string) : string :=
  prompt_head +:+ context_slot context +:+ prompt_tail query.

Definition apology : string :=
  "Sorry, I encountered an error while generating the response.".

(** What the [try] block of app.py:147-157 returns for an answer of the
    model. *)
Definition answer_of (r : result string) : string :=
  match r with
  | Ok text => text
  | Err _ => apology
  end.

Definition ask_rag_question (query : string) : M string :=
  let* collection := get_chroma_collection in
  let* model := get_gemini_model in
  let* retrieved_docs :=
    retrieve_relevant_documents query collection N_RESULTS_RETRIEVAL in
  let context := context_of retrieved_docs in
  let prompt := build_prompt context query in
  try_except
    (generate_content model prompt GEMINI_TEMPERATURE)
    (fun _ => ret apology).

End App.

(** ** Sequences of calls into app.py *)

(** The entry points other modules use. *)
Inductive call : Type :=
  | CallGetCollection
  | CallGetModel
  | CallAsk (query : string).

Definition run_call (env : Externals) (c : call) (w : World) : World :=
  match c with
  | CallGetCollection => (get_chroma_collection env w).2
  | CallGetModel => (get_gemini_model w).2
  | CallAsk q => (ask_rag_question env q w).2
  end.

Definition run_calls (env : Externals) (cs : list call) (w : World) : World :=
  foldl (fun w c => run_call env c w) w cs.

(** The first three statements of [ask_rag_question] (app.py:108-111): the
    model handle and the retrieved texts the rest of the function works on. *)
Definition retrieval_stage (env : Externals) (query : string)
  : M (Model * list string) :=
  let* collection := get_chroma_collection env in
  let* model := get_gemini_model in
  let* retrieved_docs :=
    retrieve_relevant_documents env query collection N_RESULTS_RETRIEVAL in
  ret (model, retrieved_docs).

(** Events of opening, counting and populating the collection. *)
Definition is_index_event (e : event) : bool :=
  match e with
  | EvEmbeddingFunction | EvPersistentClient _ | EvGetOrCreate _
  | EvCount | EvReadFile _ | EvSplit _ _ | EvAdd _ _ => true
  | EvQuery _ _ | EvGenerativeModel _ | EvGenerate _ _ => false
  end.

Definition is_model_event (e : event) : bool :=
  match e with
  | EvGenerativeModel _ => true
  | _ => false
  end.

(** The storage is opened at app.py:61. *)
Definition is_open_event (e : event) : bool :=
  match e with
  | EvPersistentClient _ => true
  | _ => false
  end.

Definition storage_opens (w : World) : nat :=
  length (filter is_open_event (trace w)).

Definition model_creations (w : World) : nat :=
  length (filter is_model_event (trace w)).

(** The model handle was created once if it is cached, and never if not. *)
Definition model_created_once (w : World) : Prop :=
  length (filter is_model_event (trace w))
  = match gemini_model w with Some _ => 1 | None => 0 end.

(** ** Concrete services, for running the model *)

Module Demo.

Definition corpus : string :=
  "Alice went to the market." +:+ Py.nl +:+ "Bob stayed home.".

(** A splitter that cuts at line breaks. *)
Fixpoint lines_from (acc : string) (s : string) : list string :=
  match s with
  | EmptyString =>
      match acc with EmptyString => [] | _ => [String.rev acc] end
  | String a rest =>
      if Ascii.eqb a (Ascii.ascii_of_nat 10)
      then match acc with
           | EmptyString => lines_from EmptyString rest
           | _ => String.rev acc :: lines_from EmptyString rest
           end
      else lines_from (String a acc) rest
  end.

Definition always_ok {A} (_ : A) : result unit := Ok tt.

(** Every service answers; the model repeats a fixed sentence. *)
Definition env : Externals := {|
  ext_storage := always_ok;
  ext_embed := always_ok;
  ext_read_file := fun _ => Ok corpus;
  ext_split_text := fun text _ _ => lines_from EmptyString text;
  ext_rank := fun s _ n => Some [take n (snd <$> s)];
  ext_generate := fun _ _ => Ok "Alice went to the market."
|}.

(** The store refuses queries. *)
Definition env_query_fails : Externals := {|
  ext_storage := fun op =>
    match op with OpQuery => Err "store unavailable" | _ => Ok tt end;
  ext_embed := always_ok;
  ext_read_file := fun _ => Ok corpus;
  ext_split_text := fun text _ _ => lines_from EmptyString text;
  ext_rank := fun s _ n => Some [take n (snd <$> s)];
  ext_generate := fun _ _ => Ok "Alice went to the market."
|}.

(** The model always fails. *)
Definition env_generation_fails : Externals := {|
  ext_storage := always_ok;
  ext_embed := always_ok;
  ext_read_file := fun _ => Ok corpus;
  ext_split_text := fun text _ _ => lines_from EmptyString text;
  ext_rank := fun s _ n => Some [take n (snd <$> s)];
  ext_generate := fun _ _ => Err "quota exceeded"
|}.

(** The corpus file cannot be read. *)
Definition env_file_missing : Externals := {|
  ext_storage := always_ok;
  ext_embed := always_ok;
  ext_read_file := fun _ => Err "No such file or directory";
  ext_split_text := fun text _ _ => lines_from EmptyString text;
  ext_rank := fun s _ n => Some [take n (snd <$> s)];
  ext_generate := fun _ _ => Ok "Alice went to the market."
|}.

(** The world after a successful first acquisition on empty storage. *)
Definition ready_world (e : Externals) : World :=
  (get_chroma_collection e (fresh_process None)).2.

End Demo.

(** ** api_server.py *)

Inductive method : Type := GET | POST | OtherMethod.

(** A request as the handlers read it.  [req_json] is [None] when
    [request.is_json] is false, and otherwise the value of
    [data.get('query')] ([None] when the key is absent). *)
Record request : Type := mkRequest {
  req_method : method;
  req_path : string;
  req_json : option (option string)
}.

(** A response: the status code and the fields of the JSON body. *)
Record response : Type := mkResponse {
  status_code : nat;
  body : list (string * string)
}.

Global Instance method_eq_dec : EqDecision method.
Proof. solve_decision. Defined.

Global Instance response_eq_dec : EqDecision response.
Proof. solve_decision. Defined.

(** The field of a JSON body, [body.get(key)]. *)
Fixpoint json_get (key : string) (b : list (string * string)) : option string :=
  match b with
  | [] => None
  | (k, v) :: rest => if String.eqb k key then Some v else json_get key rest
  end.

(** Where a thread running [initialize_rag_system] stands
    (api_server.py:14-29). *)
Inductive init_pc : Type :=
  | IWaitLock      (* line 17: about to acquire [rag_init_lock] *)
  | ICheckFlag     (* line 18: holds the lock, about to test the flag *)
  | IAcquire       (* line 23: about to call [get_chroma_collection] *)
  | ISetReady      (* line 24: about to set the flag *)
  | IRelease       (* end of the [with] block: about to release the lock *)
  | IDone.

(** Where a thread handling a request stands (api_server.py:32-67). *)
Inductive req_pc : Type :=
  | RBeforeRequest (* line 35: about to test the flag *)
  | RLockProbe     (* line 36: about to test [rag_init_lock.locked()] *)
  | RSpawn         (* line 39: about to start an initialization thread *)
  | RReject        (* line 41: about to answer 503 *)
  | RView          (* the hook returned [None]: about to run the view *)
  | RDone (r : response).

Inductive thread : Type :=
  | InitThread (pc : init_pc)
  | RequestThread (r : request) (pc : req_pc).

(** Statements of [api_server.py] whose execution is recorded. *)
Inductive srv_event : Type :=
  | SrvInitBegin   (* line 19 *)
  | SrvAcquire     (* line 23 *)
  | SrvInitReady   (* lines 24-25 *)
  | SrvInitFailed  (* lines 27-29 *)
  | SrvSpawn.      (* lines 38-39 *)

Global Instance srv_event_eq_dec : EqDecision srv_event.
Proof. solve_decision. Defined.

(** The server process: the module globals of [api_server.py], the state of
    [app.py], the threads, the exit code once the process has ended, and
    the recorded events (most recent first). *)
Record Server : Type := mkServer {
  rag_system_ready : bool;
  rag_init_lock : bool;
  app : World;
  threads : list thread;
  exited : option nat;
  log : list srv_event
}.

(** [python api_server.py] on the given durable storage (lines 69-73): one
    initialization thread is started before the server accepts requests. *)
Definition boot (st : option Store) : Server :=
  mkServer false false (fresh_process st) [InitThread IWaitLock] None [].

Definition not_ready_response : response :=
  mkResponse 503
    [("message", "RAG system is initializing. Please try again in a moment.")].

Definition status_ready_response : response :=
  mkResponse 200
    [("status", "ready");
     ("message", "RAG system is fully initialized and operational.")].

Definition status_initializing_response : response :=
  mkResponse 200
    [("status", "initializing");
     ("message", "RAG system is currently loading knowledge base and embeddings. Please wait.")].

Section Server.

Variable env : Externals.

(** *** api_server.py:61-67 *)
Definition status (ready : bool) : response :=
  if ready then status_ready_response else status_initializing_response.

(** *** api_server.py:44-59.  An exception that leaves the view is
    answered by Flask with status 500. *)
Definition ask (r : request) (w : World) : response * World :=
  match req_json r with
  | None => (mkResponse 400 [("error", "Request must be JSON")], w)
  | Some data_query =>
      match data_query with
      | Some (String a q) =>
          match ask_rag_question env (String a q) w with
          | (Return response_text, w') =>
              (mkResponse 200 [("answer", response_text)], w')
          | (Raise _, w') => (mkResponse 500 [], w')
          end
      | _ => (mkResponse 400 [("error", "Missing 'query' parameter")], w)
      end
  end.

(** The routes of lines 44 and 61; Flask answers 405 for a known path with
    another method and 404 for an unknown path. *)
Definition dispatch (ready : bool) (r : request) (w : World)
  : response * World :=
  if String.eqb (req_path r) "/ask" then
    match req_method r with
    | POST => ask r w
    | _ => (mkResponse 405 [], w)
    end
  else if String.eqb (req_path r) "/status" then
    match req_method r with
    | GET => (status ready, w)
    | _ => (mkResponse 405 [], w)
    end
  else (mkResponse 404 [], w).

Definition set_thread (i : nat) (t : thread) (s : Server) : Server :=
  mkServer (rag_system_ready s) (rag_init_lock s) (app s)
           (<[i := t]> (threads s)) (exited s) (log s).

Definition record (e : srv_event) (s : Server) : Server :=
  mkServer (rag_system_ready s) (rag_init_lock s) (app s)
           (threads s) (exited s) (e :: log s).

Definition set_lock (b : bool) (s : Server) : Server :=
  mkServer (rag_system_ready s) b (app s) (threads s) (exited s) (log s).

Definition set_app (w : World) (s : Server) : Server :=
  mkServer (rag_system_ready s) (rag_init_lock s) w
           (threads s) (exited s) (log s).

Definition set_ready (s : Server) : Server :=
  mkServer true (rag_init_lock s) (app s) (threads s) (exited s) (log s).

Definition spawn (t : thread) (s : Server) : Server :=
  mkServer (rag_system_ready s) (rag_init_lock s) (app s)
           (threads s ++ [t])%list (exited s) (log s).

(** [os._exit(code)] *)
Definition os_exit (code : nat) (s : Server) : Server :=
  mkServer (rag_system_ready s) (rag_init_lock s) (app s)
           (threads s) (Some code) (log s).

(** *** api_server.py:14-29, one statement at a time *)
Definition init_step (i : nat) (pc : init_pc) (s : Server) : option Server :=
  match pc with
  | IWaitLock =>
      if rag_init_lock s then None
      else Some (set_thread i (InitThread ICheckFlag) (set_lock true s))
  | ICheckFlag =>
      if rag_system_ready s
      then Some (set_thread i (InitThread IRelease) s)
      else Some (set_thread i (InitThread IAcquire) (record SrvInitBegin s))
  | IAcquire =>
      match get_chroma_collection env (app s) with
      | (Return _, w') =>
          Some (set_thread i (InitThread ISetReady)
                  (set_app w' (record SrvAcquire s)))
      | (Raise _, w') =>
          Some (os_exit 1
                  (record SrvInitFailed (set_app w' (record SrvAcquire s))))
      end
  | ISetReady =>
      Some (set_thread i (InitThread IRelease)
              (record SrvInitReady (set_ready s)))
  | IRelease =>
      Some (set_thread i (InitThread IDone) (set_lock false s))
  | IDone => None
  end.

(** *** api_server.py:32-41 followed by the view, one statement at a time.
    The view itself runs as one step; what two views that overlap inside
    [get_gemini_model] can do is the subject of [model_step]. *)
Definition request_step (i : nat) (r : request) (pc : req_pc) (s : Server)
  : option Server :=
  match pc with
  | RBeforeRequest =>
      if rag_system_ready s
      then Some (set_thread i (RequestThread r RView) s)
      else Some (set_thread i (RequestThread r RLockProbe) s)
  | RLockProbe =>
      if rag_init_lock s
      then Some (set_thread i (RequestThread r RReject) s)
      else Some (set_thread i (RequestThread r RSpawn) s)
  | RSpawn =>
      Some (spawn (InitThread IWaitLock)
              (set_thread i (RequestThread r RReject) (record SrvSpawn s)))
  | RReject =>
      Some (set_thread i (RequestThread r (RDone not_ready_response)) s)
  | RView =>
      let '(resp, w') := dispatch (rag_system_ready s) r (app s) in
      Some (set_thread i (RequestThread r (RDone resp)) (set_app w' s))
  | RDone _ => None
  end.

(** What may happen next: a request arrives, or thread [i] runs its next
    statement. *)
Inductive label : Type :=
  | Arrive (r : request)
  | Run (i : nat).

(** Nothing runs once the process has exited. *)
Definition step (l : label) (s : Server) : option Server :=
  match exited s with
  | Some _ => None
  | None =>
      match l with
      | Arrive r => Some (spawn (RequestThread r RBeforeRequest) s)
      | Run i =>
          match threads s !! i with
          | Some (InitThread pc) => init_step i pc s
          | Some (RequestThread r pc) => request_step i r pc s
          | None => None
          end
      end
  end.

(** The states the server can be in after any interleaving. *)
Inductive steps (s : Server) : Server -> Prop :=
  | steps_refl : steps s s
  | steps_step s1 s2 l :
      steps s s1 -> step l s1 = Some s2 -> steps s s2.

(** Running a schedule; a label that cannot run is skipped. *)
Definition run (ls : list label) (s : Server) : Server :=
  foldl (fun s l => default s (step l s)) s ls.

(** Thread [i] runs alone for at most [fuel] statements. *)
Definition serve (i : nat) (fuel : nat) (s : Server) : Server :=
  run (replicate fuel (Run i)) s.

End Server.

(** ** Counting threads and events *)

Fixpoint tally (f : thread -> bool) (ts : list thread) : nat :=
  match ts with
  | [] => 0
  | t :: rest => (if f t then 1 else 0) + tally f rest
  end.

(** Holds [rag_init_lock]. *)
Definition in_critical (t : thread) : bool :=
  match t with
  | InitThread (ICheckFlag | IAcquire | ISetReady | IRelease) => true
  | _ => false
  end.

Definition init_pc_eqb (p q : init_pc) : bool :=
  match p, q with
  | IWaitLock, IWaitLock | ICheckFlag, ICheckFlag | IAcquire, IAcquire
  | ISetReady, ISetReady | IRelease, IRelease | IDone, IDone => true
  | _, _ => false
  end.

(** An initialization thread standing at [p]. *)
Definition at_pc (p : init_pc) (t : thread) : bool :=
  match t with
  | InitThread q => init_pc_eqb p q
  | RequestThread _ _ => false
  end.

(** A request past the [before_request] hook, about to run its view. *)
Definition at_view (t : thread) : bool :=
  match t with
  | RequestThread _ RView => true
  | _ => false
  end.

Definition srv_event_eqb (e1 e2 : srv_event) : bool :=
  match e1, e2 with
  | SrvInitBegin, SrvInitBegin | SrvAcquire, SrvAcquire
  | SrvInitReady, SrvInitReady | SrvInitFailed, SrvInitFailed
  | SrvSpawn, SrvSpawn => true
  | _, _ => false
  end.

Fixpoint occurrences (e : srv_event) (l : list srv_event) : nat :=
  match l with
  | [] => 0
  | x :: rest => (if srv_event_eqb e x then 1 else 0) + occurrences e rest
  end.

Definition b2n (b : bool) : nat := if b then 1 else 0.

(** The number of initialization threads standing at [p]. *)
Definition standing (p : init_pc) (s : Server) : nat :=
  tally (at_pc p) (threads s).

(** What holds of the readiness gate in every state the server reaches. *)
Record gate_inv (s : Server) : Prop := mkGateInv {
  (* the lock is held by exactly the thread inside the [with] block *)
  inv_lock :
    standing ICheckFlag s + standing IAcquire s
    + standing ISetReady s + standing IRelease s
    = b2n (rag_init_lock s);
  inv_begun :
    occurrences SrvInitBegin (log s)
    = if rag_system_ready s then 1
      else standing IAcquire s + standing ISetReady s;
  inv_acquire :
    occurrences SrvAcquire (log s)
    = if rag_system_ready s then 1
      else standing ISetReady s + occurrences SrvInitFailed (log s);
  inv_completed :
    occurrences SrvInitReady (log s) = b2n (rag_system_ready s);
  inv_failed :
    occurrences SrvInitFailed (log s)
    = match exited s with Some _ => 1 | None => 0 end;
  inv_ready :
    rag_system_ready s = true ->
    standing IAcquire s = 0 /\ standing ISetReady s = 0 /\ exited s = None;
  inv_not_ready :
    rag_system_ready s = false ->
    standing IRelease s = 0 /\ standing IDone s = 0
    /\ tally at_view (threads s) = 0;
  inv_cached :
    rag_system_ready s = true \/ 0 < standing ISetReady s ->
    is_Some (chroma_collection (app s));
  inv_exit :
    forall code, exited s = Some code ->
                 code = 1 /\ 0 < standing IAcquire s
}.

Definition GET_status : request := mkRequest GET "/status" None.

Definition POST_ask (q : string) : request :=
  mkRequest POST "/ask" (Some (Some q)).

(** ** Further concrete services *)

Module Cases.

(** The corpus file is empty. *)
Definition env_empty_corpus : Externals := {|
  ext_storage := Demo.always_ok;
  ext_embed := Demo.always_ok;
  ext_read_file := fun _ => Ok EmptyString;
  ext_split_text := fun text _ _ => Demo.lines_from EmptyString text;
  ext_rank := fun s _ n => Some [take n (snd <$> s)];
  ext_generate := fun _ _ => Ok cannot_find
|}.

End Cases.

(** ** The script entry of app.py *)

Definition test_query_proposer : string := "Who proposes to Elizabeth first?".
Definition test_query_no_info : string := "What is the capital of France?".

(** app.py:160-180: the acquisition, the count of the "ready" message and
    the two test queries, inside one [try]. *)
Definition main (env : Externals) : M unit :=
  try_except
    (let* collection := get_chroma_collection env in
     let* _ := coll_count env collection in
     let* _ := ask_rag_question env test_query_proposer in
     let* _ := ask_rag_question env test_query_no_info in
     ret tt)
    (fun _ => ret tt).

(** Calls that belong to answering a question. *)
Definition is_answer_event (e : event) : bool :=
  negb (is_index_event e).

(** ** More counting over the server's threads *)

(** A request that has been answered, and not by the rejection of the
    [before_request] hook. *)
Definition answered (t : thread) : bool :=
  match t with
  | RequestThread _ (RDone resp) =>
      negb (bool_decide (resp = not_ready_response))
  | _ => false
  end.

(** ** ui_app.py *)

(** What [requests.get] and [requests.post] come back with: a response, or
    one of the exceptions the handlers of ui_app.py tell apart. *)
Inductive http_outcome : Type :=
  | HttpResponse (r : response)
  | HttpConnectionError
  | HttpTimeout
  | HttpOtherError.

(** [response.raise_for_status()] raises for the codes 400 to 599. *)
Definition raises_for_status (r : response) : bool :=
  Nat.leb 400 (status_code r) && Nat.ltb (status_code r) 600.

(** The body of [check_rag_status_api], ui_app.py:24-33.  The calls of
    [st.error] are not modelled. *)
Definition check_rag_status_api_body (o : http_outcome) : bool :=
  match o with
  | HttpResponse r =>
      if raises_for_status r then false
      else bool_decide (json_get "status" (body r) = Some "ready")
  | HttpConnectionError | HttpTimeout | HttpOtherError => false
  end.

(** ui_app.py:44-63 *)
Definition get_rag_response (o : http_outcome) : string :=
  match o with
  | HttpResponse r =>
      if raises_for_status r then "An API error occurred."
      else default "Error: No answer received from API."
             (json_get "answer" (body r))
  | HttpConnectionError => "Connection error."
  | HttpTimeout => "Timeout error."
  | HttpOtherError => "An unexpected error occurred."
  end.

(** The state of the Streamlit script: the entry of [st.cache_data] for
    [check_rag_status_api] (a function without arguments has one entry, kept
    without expiry), the number of requests sent so far, and
    [st.session_state.rag_ready]. *)
Record Ui : Type := mkUi {
  status_cache : option bool;
  requests_sent : nat;
  rag_ready : bool
}.

(** ui_app.py:18-19 on a first run. *)
Definition ui_start : Ui := mkUi None 0 false.

Section UiPolling.

(** The outcome of the [k]-th request the script sends. *)
Variable net : nat -> http_outcome.

(** [check_rag_status_api] as decorated at ui_app.py:22: the body runs only
    when the cache has no entry. *)
Definition check_rag_status_api (u : Ui) : bool * Ui :=
  match status_cache u with
  | Some b => (b, u)
  | None =>
      let b := check_rag_status_api_body (net (requests_sent u)) in
      (b, mkUi (Some b) (S (requests_sent u)) (rag_ready u))
  end.

(** ui_app.py:36-41 on its first call, with at most [fuel] rounds of the
    loop; [None] when the loop is still running after them. *)
Fixpoint wait_for_rag_ready (fuel : nat) (u : Ui) : option Ui :=
  match fuel with
  | 0 => None
  | S fuel' =>
      let '(ready, u1) := check_rag_status_api u in
      if ready
      then Some (mkUi (status_cache u1) (requests_sent u1) true)
      else wait_for_rag_ready fuel' u1
  end.

End UiPolling.

(** ** Overlapping calls of [get_gemini_model] *)

(** Where a caller of [get_gemini_model] stands (app.py:95-101). *)
Inductive model_pc : Type :=
  | MTest                       (* line 98: about to test the global *)
  | MCreate                     (* lines 99-100: about to create and assign *)
  | MReturn                     (* line 101: about to read the global *)
  | MDone (m : option Model).   (* returned what the global held *)

Global Instance model_pc_eq_dec : EqDecision model_pc.
Proof. solve_decision. Defined.

(** app.py:99-100 *)
Definition create_gemini_model : M Model :=
  let* _ := emit (EvGenerativeModel GEMINI_MODEL) in
  let* o := new_obj in
  let m := mkModel o GEMINI_MODEL in
  let* _ := set_gemini_model m in
  ret m.

(** One statement of one caller. *)
Definition model_step (pc : model_pc) (w : World)
  : option (model_pc * World) :=
  match pc with
  | MTest =>
      Some (match gemini_model w with
            | None => MCreate
            | Some _ => MReturn
            end, w)
  | MCreate => Some (MReturn, (create_gemini_model w).2)
  | MReturn => Some (MDone (gemini_model w), w)
  | MDone _ => None
  end.

(** Callers of [get_gemini_model] on threads that share app.py's state. *)
Record Callers : Type := mkCallers {
  shared : World;
  callers : list model_pc
}.

Definition callers_step (i : nat) (s : Callers) : option Callers :=
  match callers s !! i with
  | Some pc =>
      match model_step pc (shared s) with
      | Some (pc', w') => Some (mkCallers w' (<[i := pc']> (callers s)))
      | None => None
      end
  | None => None
  end.

(** Running a schedule of caller indices; a caller that has returned is
    skipped. *)
Definition callers_run (sched : list nat) (s : Callers) : Callers :=
  foldl (fun s i => default s (callers_step i s)) s sched.

(** * Properties *)

(** ** Running the monad *)

Ltac unfold_monad :=
  unfold try_except, bind, ret, raise, emit, lift_result, new_obj,
    get_storage, put_storage in *.

Ltac unfold_chroma :=
  unfold coll_query, coll_add, coll_count, the_store,
    get_or_create_collection, persistent_client, embed, embedding_function,
    storage_call, set_chroma_collection, set_gemini_model in *.

Ltac crush_run :=
  unfold_chroma;
  repeat (progress (unfold_monad; simpl in *; try case_match; simplify_eq/=));
  auto; try done.

Section AppFacts.

Variable env : Externals.

Lemma get_chroma_collection_cached w c :
  chroma_collection w = Some c ->
  get_chroma_collection env w = (Return c, w).
Proof. intros H. unfold get_chroma_collection. by rewrite H. Qed.

Lemma index_if_empty_frame c w :
  chroma_collection (index_if_empty env c w).2 = chroma_collection w
  /\ gemini_model (index_if_empty env c w).2 = gemini_model w.
Proof.
  unfold index_if_empty, load_and_chunk_document. crush_run.
Qed.

Lemma get_chroma_collection_Return w c w' :
  get_chroma_collection env w = (Return c, w') ->
  chroma_collection w' = Some c.
Proof.
  unfold get_chroma_collection.
  destruct (chroma_collection w) eqn:E; [by intros [= <- <-]|].
  unfold index_if_empty, load_and_chunk_document. intros H. crush_run.
Qed.

Lemma get_chroma_collection_model w :
  gemini_model (get_chroma_collection env w).2 = gemini_model w.
Proof.
  unfold get_chroma_collection.
  destruct (chroma_collection w) eqn:E; [done|].
  unfold index_if_empty, load_and_chunk_document. crush_run.
Qed.

Lemma get_gemini_model_cached w m :
  gemini_model w = Some m -> get_gemini_model w = (Return m, w).
Proof. intros H. unfold get_gemini_model. by rewrite H. Qed.

Lemma get_gemini_model_total w :
  exists m, (get_gemini_model w).1 = Return m
            /\ gemini_model (get_gemini_model w).2 = Some m.
Proof.
  unfold get_gemini_model. destruct (gemini_model w) eqn:E.
  - eexists; split; [done|]. done.
  - eexists; split; [done|]. done.
Qed.

Lemma get_gemini_model_frame w :
  chroma_collection (get_gemini_model w).2 = chroma_collection w
  /\ storage (get_gemini_model w).2 = storage w
  /\ filter is_index_event (trace (get_gemini_model w).2)
     = filter is_index_event (trace w).
Proof.
  unfold get_gemini_model. destruct (gemini_model w); done.
Qed.

Lemma retrieve_frame q c n w :
  chroma_collection (retrieve_relevant_documents env q c n w).2
    = chroma_collection w
  /\ gemini_model (retrieve_relevant_documents env q c n w).2
     = gemini_model w
  /\ storage (retrieve_relevant_documents env q c n w).2 = storage w
  /\ trace (retrieve_relevant_documents env q c n w).2
     = EvQuery q n :: trace w.
Proof.
  unfold retrieve_relevant_documents. crush_run.
Qed.

Lemma get_chroma_collection_model_events w :
  filter is_model_event (trace (get_chroma_collection env w).2)
  = filter is_model_event (trace w).
Proof.
  unfold get_chroma_collection.
  destruct (chroma_collection w) eqn:E; [done|].
  unfold index_if_empty, load_and_chunk_document. crush_run.
Qed.

Lemma generation_block m p w :
  try_except (generate_content env m p GEMINI_TEMPERATURE)
             (fun _ => ret apology) w
  = (Return (answer_of (ext_generate env p GEMINI_TEMPERATURE)),
     mkWorld (chroma_collection w) (gemini_model w) (storage w)
             (next_obj w)
             (EvGenerate p (ext_generate env p GEMINI_TEMPERATURE)
                :: trace w)).
Proof.
  unfold generate_content. unfold_monad. simpl.
  by destruct (ext_generate env p GEMINI_TEMPERATURE).
Qed.

Lemma ask_rag_question_stages q w :
  ask_rag_question env q w
  = match retrieval_stage env q w with
    | (Return (m, docs), w1) =>
        try_except
          (generate_content env m (build_prompt (context_of docs) q)
             GEMINI_TEMPERATURE)
          (fun _ => ret apology) w1
    | (Raise e, w1) => (Raise e, w1)
    end.
Proof.
  unfold ask_rag_question, retrieval_stage. unfold bind at 1 4.
  destruct (get_chroma_collection env w) as [[c|e] w1]; [|done].
  unfold bind at 1 3.
  destruct (get_gemini_model w1) as [[m|e] w2]; [|done].
  unfold bind at 1 2.
  by destruct (retrieve_relevant_documents env q c N_RESULTS_RETRIEVAL w2)
    as [[docs|e] w3].
Qed.

(** The first statement decides on the cache; the rest of the function
    runs as if the collection had been cached from the start. *)
Lemma ask_rag_question_via_collection q w :
  ask_rag_question env q w
  = match get_chroma_collection env w with
    | (Return _, w1) => ask_rag_question env q w1
    | (Raise e, w1) => (Raise e, w1)
    end.
Proof.
  unfold ask_rag_question at 1. unfold bind at 1.
  destruct (get_chroma_collection env w) as [[c|e] w1] eqn:E; [|done].
  unfold ask_rag_question. unfold bind at 3.
  by rewrite (get_chroma_collection_cached w1 c
                (get_chroma_collection_Return _ _ _ E)).
Qed.

Lemma retrieval_stage_cached q w c :
  chroma_collection w = Some c ->
  retrieval_stage env q w
  = match retrieve_relevant_documents env q c N_RESULTS_RETRIEVAL
            (get_gemini_model w).2 with
    | (Return docs, w1) =>
        (Return (default (mkModel 0 GEMINI_MODEL)
                   (gemini_model (get_gemini_model w).2), docs), w1)
    | (Raise e, w1) => (Raise e, w1)
    end.
Proof.
  intros H. unfold retrieval_stage. unfold bind at 1.
  rewrite (get_chroma_collection_cached _ _ H). unfold bind at 1.
  destruct (get_gemini_model_total w) as (m & Hm & Hm').
  destruct (get_gemini_model w) as [[m'|e] w1]; simpl in *; [|done].
  simplify_eq. rewrite Hm'. unfold bind, ret.
  by destruct (retrieve_relevant_documents _ _ _ _ _) as [[?|?] ?].
Qed.

(** With the collection cached, a call of [ask_rag_question] leaves the
    cache and the store alone and opens, counts and adds nothing. *)
Lemma ask_rag_question_frame q w c :
  chroma_collection w = Some c ->
  chroma_collection (ask_rag_question env q w).2 = Some c
  /\ storage (ask_rag_question env q w).2 = storage w
  /\ filter is_index_event (trace (ask_rag_question env q w).2)
     = filter is_index_event (trace w).
Proof.
  intros H. rewrite ask_rag_question_stages.
  rewrite (retrieval_stage_cached _ _ _ H).
  pose proof (retrieve_frame q c N_RESULTS_RETRIEVAL
                (get_gemini_model w).2) as (R1 & _ & R3 & R4).
  pose proof (get_gemini_model_frame w) as (G1 & G2 & G3).
  destruct (retrieve_relevant_documents _ _ _ _ _) as [[docs|e] w1];
    simpl in *.
  - rewrite generation_block. simpl.
    rewrite R1, R3, R4, G1, G2.
    rewrite !filter_cons_False by (simpl; tauto). by rewrite G3.
  - rewrite R1, R3, R4, G1, G2.
    rewrite filter_cons_False by (simpl; tauto). by rewrite G3.
Qed.

Lemma get_chroma_collection_frame w c :
  chroma_collection w = Some c ->
  chroma_collection (get_chroma_collection env w).2 = Some c
  /\ storage (get_chroma_collection env w).2 = storage w
  /\ filter is_index_event (trace (get_chroma_collection env w).2)
     = filter is_index_event (trace w).
Proof. intros H. by rewrite (get_chroma_collection_cached _ _ H). Qed.

Lemma run_call_frame k w c :
  chroma_collection w = Some c ->
  chroma_collection (run_call env k w) = Some c
  /\ storage (run_call env k w) = storage w
  /\ filter is_index_event (trace (run_call env k w))
     = filter is_index_event (trace w).
Proof.
  intros H. destruct k; simpl.
  - by apply get_chroma_collection_frame.
  - pose proof (get_gemini_model_frame w) as (G1 & G2 & G3).
    by rewrite G1, G2, G3.
  - by apply ask_rag_question_frame.
Qed.

Lemma run_calls_frame ks w c :
  chroma_collection w = Some c ->
  chroma_collection (run_calls env ks w) = Some c
  /\ storage (run_calls env ks w) = storage w
  /\ filter is_index_event (trace (run_calls env ks w))
     = filter is_index_event (trace w).
Proof.
  revert w. induction ks as [|k ks IH]; intros w H; [done|].
  simpl. destruct (run_call_frame k w c H) as (F1 & F2 & F3).
  destruct (IH _ F1) as (I1 & I2 & I3).
  by rewrite I1, I2, I3, F2, F3.
Qed.

End AppFacts.

(** ** Prompt assembly *)

(** C4, as stated, fails: when nothing was retrieved the variable [context]
    of app.py:125 is the empty string, not the placeholder sentence. *)
Lemma context_variable_is_not_placeholder :
  context_of [] = EmptyString /\ context_of [] <> no_context.
Proof. split; [reflexivity | discriminate]. Qed.

(** C4 (amended).  When the retrieval stage hands over [docs], the prompt
    sent to the model is the fixed template around a context slot; the
    variable [context] is the newline join of [docs] in their order (the
    empty string when [docs] is empty); the slot holds the placeholder
    sentence when [context] is empty, in particular when [docs] is empty,
    and [context] itself otherwise. *)
Theorem prompt_embeds_context env q w m docs w1 :
  retrieval_stage env q w = (Return (m, docs), w1) ->
  let context := context_of docs in
  let prompt := build_prompt context q in
  trace (ask_rag_question env q w).2
    = EvGenerate prompt (ext_generate env prompt GEMINI_TEMPERATURE)
        :: trace w1
  /\ context = Py.join Py.nl docs
  /\ prompt = prompt_head
              +:+ (if Py.truthy_str context then context else no_context)
              +:+ prompt_tail q
  /\ (docs = [] ->
      context = EmptyString
      /\ prompt = prompt_head +:+ no_context +:+ prompt_tail q).
Proof.
  intros Hst context prompt.
  rewrite ask_rag_question_stages, Hst, generation_block. simpl.
  split; [reflexivity|].
  split; [subst context; by destruct docs|].
  split; [reflexivity|].
  intros ->. by split.
Qed.

Lemma prompt_embeds_context_witness :
  let w := Demo.ready_world Demo.env in
  let docs := ["Alice went to the market."; "Bob stayed home."] in
  exists m w1,
    retrieval_stage Demo.env "Where did Alice go?" w = (Return (m, docs), w1)
    /\ head (trace (ask_rag_question Demo.env "Where did Alice go?" w).2)
       = Some (EvGenerate
                 (build_prompt
                    ("Alice went to the market." +:+ Py.nl +:+ "Bob stayed home.")
                    "Where did Alice go?")
                 (Ok "Alice went to the market.")).
Proof.
  eexists _, _. split; [vm_compute; reflexivity|].
  edestruct (prompt_embeds_context Demo.env "Where did Alice go?"
               (Demo.ready_world Demo.env)) as (Ht & _).
  { vm_compute. reflexivity. }
  rewrite Ht. vm_compute. reflexivity.
Defined.

(** ** The generation fallback *)

Lemma get_chroma_collection_no_generation_error env w msg :
  (get_chroma_collection env w).1 <> Raise (GenerationError msg).
Proof.
  unfold get_chroma_collection.
  destruct (chroma_collection w) eqn:E; [done|].
  unfold index_if_empty, load_and_chunk_document. crush_run.
Qed.

Lemma retrieve_no_generation_error env q c n w msg :
  (retrieve_relevant_documents env q c n w).1 <> Raise (GenerationError msg).
Proof. unfold retrieve_relevant_documents. crush_run. Qed.

Lemma retrieval_stage_no_generation_error env q w msg :
  (retrieval_stage env q w).1 <> Raise (GenerationError msg).
Proof.
  unfold retrieval_stage. unfold bind at 1.
  pose proof (get_chroma_collection_no_generation_error env w msg) as Hc.
  destruct (get_chroma_collection env w) as [[c|e] w1];
    [|simpl in *; congruence].
  unfold bind at 1.
  destruct (get_gemini_model_total w1) as (m & Hm & _).
  destruct (get_gemini_model w1) as [[m'|e] w2]; [|discriminate Hm].
  unfold bind, ret.
  pose proof (retrieve_no_generation_error env q c N_RESULTS_RETRIEVAL w2 msg)
    as Hr.
  destruct (retrieve_relevant_documents _ _ _ _ _) as [[?|?] ?];
    simpl in *; congruence.
Qed.

(** C2.  Whenever the generation call is reached and fails,
    [ask_rag_question] returns exactly the apology string; no
    [GenerationError] ever leaves [ask_rag_question]; and with a model that
    always fails, every string [ask_rag_question] returns is the apology. *)
Theorem generation_failure_returns_apology env q w :
  (forall m docs w1 msg,
      retrieval_stage env q w = (Return (m, docs), w1) ->
      ext_generate env (build_prompt (context_of docs) q) GEMINI_TEMPERATURE
        = Err msg ->
      (ask_rag_question env q w).1 = Return apology)
  /\ (forall msg,
        (ask_rag_question env q w).1 <> Raise (GenerationError msg))
  /\ ((forall p t, exists msg, ext_generate env p t = Err msg) ->
      (forall m docs w1,
          retrieval_stage env q w = (Return (m, docs), w1) ->
          (ask_rag_question env q w).1 = Return apology)
      /\ (forall text,
            (ask_rag_question env q w).1 = Return text -> text = apology)).
Proof.
  repeat split.
  - intros m docs w1 msg Hst Hgen.
    by rewrite ask_rag_question_stages, Hst, generation_block, Hgen.
  - intros msg. rewrite ask_rag_question_stages.
    pose proof (retrieval_stage_no_generation_error env q w msg) as Hst.
    destruct (retrieval_stage env q w) as [[[m docs]|e] w1];
      [|simpl in *; congruence].
    by rewrite generation_block.
  - intros m docs w1 Hst.
    destruct (H (build_prompt (context_of docs) q) GEMINI_TEMPERATURE)
      as [msg Hgen].
    by rewrite ask_rag_question_stages, Hst, generation_block, Hgen.
  - intros text. rewrite ask_rag_question_stages.
    destruct (retrieval_stage env q w) as [[[m docs]|e] w1];
      [|discriminate].
    destruct (H (build_prompt (context_of docs) q) GEMINI_TEMPERATURE)
      as [msg Hgen].
    rewrite generation_block, Hgen. simpl. congruence.
Qed.

Lemma generation_failure_returns_apology_witness :
  (forall p t, exists msg, ext_generate Demo.env_generation_fails p t = Err msg)
  /\ (ask_rag_question Demo.env_generation_fails "Where did Alice go?"
        (Demo.ready_world Demo.env_generation_fails)).1
     = Return "Sorry, I encountered an error while generating the response.".
Proof.
  assert (Hfail : forall p t,
             exists msg, ext_generate Demo.env_generation_fails p t = Err msg)
    by (intros p t; eexists; reflexivity).
  split; [exact Hfail|].
  destruct (generation_failure_returns_apology Demo.env_generation_fails
              "Where did Alice go?"
              (Demo.ready_world Demo.env_generation_fails))
    as (_ & _ & Hall).
  destruct (Hall Hfail) as [Hret _].
  eapply Hret. vm_compute. reflexivity.
Defined.

(** ** What [ask_rag_question] returns once the collection is cached *)

(** C1, as stated, fails: with the collection acquired and cached, a store
    that refuses the query makes [ask_rag_question] raise; no empty result is
    substituted. *)
Lemma retrieval_error_escapes :
  let w := Demo.ready_world Demo.env_query_fails in
  is_Some (chroma_collection w)
  /\ (ask_rag_question Demo.env_query_fails "Where did Alice go?" w).1
     = Raise (StorageError OpQuery "store unavailable").
Proof. split; [eexists|]; vm_compute; reflexivity. Qed.

(** C1 (amended).  With the collection cached: if the retrieval call returns,
    [ask_rag_question] returns a string, which is the model's text unmodified
    or, when the model fails, the (non-empty) apology string; if the
    retrieval call raises, that exception leaves [ask_rag_question]. *)
Theorem answer_or_retrieval_error env q w c :
  chroma_collection w = Some c ->
  let retrieval :=
    retrieve_relevant_documents env q c N_RESULTS_RETRIEVAL
      (get_gemini_model w).2 in
  (forall docs w1,
      retrieval = (Return docs, w1) ->
      let r := ext_generate env (build_prompt (context_of docs) q)
                 GEMINI_TEMPERATURE in
      (ask_rag_question env q w).1 = Return (answer_of r)
      /\ (r = Ok (answer_of r)
          \/ (exists msg, r = Err msg) /\ answer_of r = apology))
  /\ (forall e w1,
        retrieval = (Raise e, w1) ->
        ask_rag_question env q w = (Raise e, w1))
  /\ apology <> EmptyString.
Proof.
  intros Hc retrieval. subst retrieval.
  rewrite ask_rag_question_stages, (retrieval_stage_cached _ _ _ _ Hc).
  repeat split.
  - rewrite H, generation_block. reflexivity.
  - destruct (ext_generate env _ _) as [text|msg]; [by left|right].
    split; [by eexists|done].
  - intros e w1 ->. reflexivity.
  - discriminate.
Qed.

Lemma answer_or_retrieval_error_witness :
  (ask_rag_question Demo.env "Where did Alice go?"
     (Demo.ready_world Demo.env)).1
  = Return "Alice went to the market.".
Proof.
  edestruct (answer_or_retrieval_error Demo.env "Where did Alice go?"
               (Demo.ready_world Demo.env)) as (Hret & _).
  { vm_compute. reflexivity. }
  edestruct Hret as [Hans _].
  { vm_compute. reflexivity. }
  rewrite Hans. vm_compute. reflexivity.
Defined.

(** ** Indexing *)

Lemma doc_id_inj : Inj (=) (=) (fun i : nat => "doc_" +:+ pretty i).
Proof.
  intros i j H. simpl in H. injection H as H. by apply (inj pretty).
Qed.

Lemma doc_ids_spec n :
  length (doc_ids n) = n
  /\ NoDup (doc_ids n)
  /\ (forall i, i < n -> doc_ids n !! i = Some ("doc_" +:+ pretty i)).
Proof.
  unfold doc_ids. split; [|split].
  - by rewrite length_fmap, length_seq.
  - eapply NoDup_fmap_2; [exact doc_id_inj | apply NoDup_seq].
  - intros i Hi. rewrite list_lookup_fmap, lookup_seq_lt by done. done.
Qed.

Lemma index_if_empty_skips env c w s :
  storage w = Some s -> s <> [] ->
  storage (index_if_empty env c w).2 = Some s
  /\ filter (fun e => e <> EvCount) (trace (index_if_empty env c w).2)
     = filter (fun e => e <> EvCount) (trace w).
Proof.
  intros Hs Hne. unfold index_if_empty, load_and_chunk_document.
  crush_run; by destruct s.
Qed.

Lemma index_if_empty_changes env c w :
  storage (index_if_empty env c w).2 <> storage w ->
  storage w = Some []
  /\ exists chunks,
      chunks <> []
      /\ storage (index_if_empty env c w).2
         = Some (zip (doc_ids (length chunks)) chunks).
Proof.
  unfold index_if_empty, load_and_chunk_document.
  intros H. crush_run.
  all: match goal with
       | H : (length ?s =? 0)%nat = true |- _ =>
           apply Nat.eqb_eq in H; destruct s; [|done]
       end.
  all: split; [done|]; eexists; split; [|reflexivity].
  all: by intros E; rewrite E in *.
Qed.

Lemma get_chroma_collection_restart env w s :
  storage w = Some s -> s <> [] ->
  storage (get_chroma_collection env (restart w)).2 = Some s.
Proof.
  intros Hs Hne. unfold get_chroma_collection, restart, fresh_process.
  simpl. unfold index_if_empty, load_and_chunk_document.
  rewrite Hs. crush_run.
  all: match goal with
       | H : (length ?x =? 0)%nat = true |- _ => by destruct x
       end.
Qed.

(** C3.  On a non-empty collection the indexing step is skipped: the store,
    and with it the chunk count, is the same after one run and after two,
    also when the second run happens in a restarted process.  Whenever the
    step does change the store, the collection was empty before, and the
    chunks are stored under the positional identifiers doc_0, doc_1, ...,
    which are pairwise distinct. *)
Theorem indexing_is_idempotent env c w s :
  storage w = Some s -> s <> [] ->
  let once := (index_if_empty env c w).2 in
  let twice := (index_if_empty env c once).2 in
  (storage once = Some s
   /\ storage twice = storage once
   /\ chunk_count twice = chunk_count once
   /\ chunk_count (get_chroma_collection env (restart once)).2
      = chunk_count once)
  /\ (forall w0,
        storage (index_if_empty env c w0).2 <> storage w0 ->
        chunk_count w0 = 0
        /\ exists chunks,
            storage (index_if_empty env c w0).2
              = Some (zip (doc_ids (length chunks)) chunks)
            /\ chunk_count (index_if_empty env c w0).2 = length chunks)
  /\ (forall n,
        length (doc_ids n) = n
        /\ NoDup (doc_ids n)
        /\ forall i, i < n -> doc_ids n !! i = Some ("doc_" +:+ pretty i)).
Proof.
  intros Hs Hne once twice.
  destruct (index_if_empty_skips env c w s Hs Hne) as [Honce _].
  destruct (index_if_empty_skips env c _ s Honce Hne) as [Htwice _].
  split; [|split].
  - subst once twice. split; [done|]. split; [by rewrite Htwice, Honce|].
    unfold chunk_count. split; [by rewrite Htwice, Honce|].
    by rewrite (get_chroma_collection_restart env _ s Honce Hne), Honce.
  - intros w0 Hch.
    destruct (index_if_empty_changes env c w0 Hch) as (H0 & chunks & _ & Hst).
    unfold chunk_count. rewrite H0. split; [done|].
    exists chunks. split; [done|]. rewrite Hst. simpl.
    rewrite length_zip_with.
    destruct (doc_ids_spec (length chunks)) as [-> _]. lia.
  - apply doc_ids_spec.
Qed.

Lemma indexing_is_idempotent_witness :
  let w := Demo.ready_world Demo.env in
  let c := mkCollection 0 COLLECTION_NAME in
  chunk_count w = 2
  /\ chunk_count (index_if_empty Demo.env c w).2 = 2
  /\ chunk_count
       (index_if_empty Demo.env c (index_if_empty Demo.env c w).2).2 = 2.
Proof.
  intros w c.
  edestruct (indexing_is_idempotent Demo.env c w) as ((H1 & H2 & H3 & _) & _).
  { vm_compute. reflexivity. }
  { discriminate. }
  split; [vm_compute; reflexivity|].
  rewrite H3. split; [|reflexivity].
  unfold chunk_count. rewrite H1. reflexivity.
Defined.

(** ** The cached handles *)

Section CallInvariants.

Variable env : Externals.

(** A property of the world kept by every step of [ask_rag_question] is
    kept by [ask_rag_question]. *)
Lemma ask_rag_question_preserves (P : World -> Prop) :
  (forall w, P w -> P (get_chroma_collection env w).2) ->
  (forall w, P w -> P (get_gemini_model w).2) ->
  (forall q c n w, P w -> P (retrieve_relevant_documents env q c n w).2) ->
  (forall p r w, P w -> P (emit (EvGenerate p r) w).2) ->
  forall q w, P w -> P (ask_rag_question env q w).2.
Proof.
  intros Hc Hm Hr He q w HP.
  rewrite ask_rag_question_stages. unfold retrieval_stage.
  unfold bind at 1. specialize (Hc w HP).
  destruct (get_chroma_collection env w) as [[c|e] w1]; [|done].
  unfold bind at 1. specialize (Hm w1 Hc).
  destruct (get_gemini_model w1) as [[m|e] w2]; [|done].
  unfold bind, ret. specialize (Hr q c N_RESULTS_RETRIEVAL w2 Hm).
  destruct (retrieve_relevant_documents _ _ _ _ _) as [[docs|e] w3];
    [|done].
  rewrite generation_block.
  by apply (He (build_prompt (context_of docs) q)
              (ext_generate env (build_prompt (context_of docs) q)
                 GEMINI_TEMPERATURE)) in Hr.
Qed.

Lemma run_call_preserves (P : World -> Prop) :
  (forall w, P w -> P (get_chroma_collection env w).2) ->
  (forall w, P w -> P (get_gemini_model w).2) ->
  (forall q c n w, P w -> P (retrieve_relevant_documents env q c n w).2) ->
  (forall p r w, P w -> P (emit (EvGenerate p r) w).2) ->
  forall ks w, P w -> P (run_calls env ks w).
Proof.
  intros Hc Hm Hr He ks. induction ks as [|k ks IH]; intros w HP; [done|].
  simpl. apply IH. destruct k; simpl; auto.
  by apply ask_rag_question_preserves.
Qed.

Lemma run_calls_model_created_once ks w :
  model_created_once w -> model_created_once (run_calls env ks w).
Proof.
  apply run_call_preserves; unfold model_created_once; clear w.
  - intros w H.
    by rewrite get_chroma_collection_model_events,
      get_chroma_collection_model.
  - intros w H. unfold get_gemini_model.
    destruct (gemini_model w) eqn:E; simpl; [by rewrite E|].
    by rewrite H.
  - intros q c n w H.
    destruct (retrieve_frame env q c n w) as (_ & -> & _ & ->).
    by rewrite filter_cons_False by (simpl; tauto).
  - intros p r w H. simpl.
    by rewrite filter_cons_False by (simpl; tauto).
Qed.

Lemma run_calls_model_frame ks w m :
  gemini_model w = Some m ->
  gemini_model (run_calls env ks w) = Some m
  /\ filter is_model_event (trace (run_calls env ks w))
     = filter is_model_event (trace w).
Proof.
  intros Hm.
  apply (run_call_preserves
           (fun w' => gemini_model w' = Some m
                      /\ filter is_model_event (trace w')
                         = filter is_model_event (trace w))); [..|done].
  - intros w1 [H1 H2].
    by rewrite get_chroma_collection_model_events,
      get_chroma_collection_model.
  - intros w1 [H1 H2]. by rewrite (get_gemini_model_cached w1 m H1).
  - intros q c n w1 [H1 H2].
    destruct (retrieve_frame env q c n w1) as (_ & -> & _ & ->).
    by rewrite filter_cons_False by (simpl; tauto).
  - intros p r w1 [H1 H2]. simpl.
    by rewrite filter_cons_False by (simpl; tauto).
Qed.

End CallInvariants.

Lemma get_gemini_model_Return w m w1 :
  get_gemini_model w = (Return m, w1) -> gemini_model w1 = Some m.
Proof.
  unfold get_gemini_model.
  destruct (gemini_model w) eqn:E; [by intros [= <- <-]|].
  unfold_monad. unfold set_gemini_model. simpl. by intros [= <- <-].
Qed.

(** ** The answer path and the store *)

(** C10.  Once the collection is cached, any sequence of
    [ask_rag_question] calls leaves the store, and so the chunk count, as it
    was, and opens, counts and adds nothing.  In general the store after a
    call of [ask_rag_question] is the store its first statement,
    [get_chroma_collection], leaves. *)
Theorem answering_is_read_only env :
  (forall w c qs,
      chroma_collection w = Some c ->
      let w' := run_calls env (CallAsk <$> qs) w in
      storage w' = storage w
      /\ chunk_count w' = chunk_count w
      /\ filter is_index_event (trace w') = filter is_index_event (trace w))
  /\ (forall w q,
        storage (ask_rag_question env q w).2
        = storage (get_chroma_collection env w).2).
Proof.
  split.
  - intros w c qs Hc w'.
    destruct (run_calls_frame env (CallAsk <$> qs) w c Hc) as (_ & F2 & F3).
    unfold chunk_count. subst w'. by rewrite F2.
  - intros w q. rewrite ask_rag_question_via_collection.
    destruct (get_chroma_collection env w) as [[c|e] w1] eqn:E; [|done].
    pose proof (get_chroma_collection_Return env _ _ _ E) as Hc.
    by destruct (ask_rag_question_frame env q w1 c Hc) as (_ & -> & _).
Qed.

Lemma answering_is_read_only_witness :
  let w := Demo.ready_world Demo.env in
  storage (run_calls Demo.env
             (CallAsk <$> ["Where did Alice go?"; "Who stayed home?"]) w)
  = Some [("doc_0", "Alice went to the market.");
          ("doc_1", "Bob stayed home.")].
Proof.
  intros w.
  destruct (answering_is_read_only Demo.env) as (Hro & _).
  edestruct (Hro w) as [Hst _]; [|rewrite Hst].
  - vm_compute. reflexivity.
  - vm_compute. reflexivity.
Defined.

(** ** The readiness gate *)

Lemma tally_app f l1 l2 :
  tally f (l1 ++ l2)%list = tally f l1 + tally f l2.
Proof. induction l1 as [|t l1 IH]; simpl; [done|]. rewrite IH. lia. Qed.

Lemma tally_insert f (l : list thread) i t t' :
  l !! i = Some t ->
  tally f (<[i := t']> l) + b2n (f t) = tally f l + b2n (f t').
Proof.
  revert i. induction l as [|x l IH]; intros [|i] H; simplify_eq/=.
  - unfold b2n. lia.
  - specialize (IH i H). lia.
Qed.

Lemma tally_lookup f (l : list thread) i t :
  l !! i = Some t -> f t = true -> 0 < tally f l.
Proof.
  revert i. induction l as [|x l IH]; intros [|i] H Hf; simplify_eq/=.
  - rewrite Hf. lia.
  - specialize (IH i H Hf). lia.
Qed.

Lemma tally_in_critical l :
  tally in_critical l
  = tally (at_pc ICheckFlag) l + tally (at_pc IAcquire) l
    + tally (at_pc ISetReady) l + tally (at_pc IRelease) l.
Proof.
  induction l as [|t l IH]; simpl; [done|]. rewrite IH.
  destruct t as [[]|]; simpl; lia.
Qed.

Lemma steps_run env ls s : steps env s (run env ls s).
Proof.
  revert s. induction ls as [|l ls IH] using rev_ind; intros s.
  - apply steps_refl.
  - unfold run. rewrite foldl_app. simpl. fold (run env ls s).
    destruct (step env l (run env ls s)) eqn:E; simpl; [|apply IH].
    eapply steps_step; [apply IH | exact E].
Qed.

Lemma steps_trans env s1 s2 s3 :
  steps env s1 s2 -> steps env s2 s3 -> steps env s1 s3.
Proof.
  intros H12 H23. induction H23; [done|].
  eapply steps_step; [by apply IHsteps | done].
Qed.

(** The flag is written at one place, and [True] is written there. *)
Lemma step_ready_monotone env l s s' :
  step env l s = Some s' ->
  rag_system_ready s = true -> rag_system_ready s' = true.
Proof.
  unfold step. intros Hstep Hready.
  destruct (exited s); [done|]. destruct l as [r|i]; [by simplify_eq/=|].
  destruct (threads s !! i) as [[pc|r pc]|]; [| |done].
  - destruct pc; simpl in Hstep; repeat case_match; by simplify_eq/=.
  - destruct pc; simpl in Hstep; repeat case_match; by simplify_eq/=.
Qed.

Lemma boot_gate_inv st : gate_inv (boot st).
Proof.
  split; simpl; try done.
  - intros [H|H]; [done|]. unfold standing in H. simpl in H. lia.
Qed.

(** The views leave the cached collection in place. *)
Lemma dispatch_keeps_collection env ready r w :
  is_Some (chroma_collection w) ->
  is_Some (chroma_collection (dispatch env ready r w).2).
Proof.
  intros [c Hc]. unfold dispatch, ask.
  repeat case_match; simplify_eq/=; try by eexists.
  all: match goal with
       | Hc : chroma_collection ?w0 = Some ?c,
         H : ask_rag_question ?e ?q ?w0 = (_, ?w') |- _ =>
           destruct (ask_rag_question_frame e q w0 c Hc) as (F & _);
           rewrite H in F; by eexists
       end.
Qed.

Ltac pose_tallies Hlk t' :=
  pose proof (tally_insert (at_pc IWaitLock) _ _ _ t' Hlk);
  pose proof (tally_insert (at_pc ICheckFlag) _ _ _ t' Hlk);
  pose proof (tally_insert (at_pc IAcquire) _ _ _ t' Hlk);
  pose proof (tally_insert (at_pc ISetReady) _ _ _ t' Hlk);
  pose proof (tally_insert (at_pc IRelease) _ _ _ t' Hlk);
  pose proof (tally_insert (at_pc IDone) _ _ _ t' Hlk);
  pose proof (tally_insert at_view _ _ _ t' Hlk).

Ltac use_flags :=
  repeat match goal with
    | H : true = true -> _ |- _ => specialize (H eq_refl)
    | H : false = false -> _ |- _ => specialize (H eq_refl)
    | H : true = false -> _ |- _ => clear H
    | H : false = true -> _ |- _ => clear H
    | H : _ /\ _ |- _ => destruct H
    end.

Lemma gate_inv_step env l s s' :
  gate_inv s -> step env l s = Some s' -> gate_inv s'.
Proof.
  intros [Hlock Hbegun Hacq Hcomp Hfail Hready Hnready Hcache Hexit] Hstep.
  unfold step in Hstep. destruct (exited s) eqn:Hex; [done|]. clear Hexit.
  unfold standing in *.
  destruct (rag_system_ready s) eqn:R, (rag_init_lock s) eqn:L;
    use_flags; destruct l as [r|i].
  all: try (simplify_eq/=; split; unfold standing; simpl;
            rewrite ?R, ?L, ?Hex, ?tally_app; simpl;
            first [ lia | done | by (intros; repeat split; lia)
                  | by (intros; apply Hcache; first [ by left | right; lia ]) ]).
  all: destruct (threads s !! i) as [[pc|r pc]|] eqn:Hlk; [| |done].
  all: destruct pc; simpl in Hstep; rewrite ?R, ?L in Hstep;
    try discriminate.
  all: try match type of Hstep with
         | context [get_chroma_collection ?e ?w] =>
             pose proof (get_chroma_collection_Return e w) as Hgcc;
             destruct (get_chroma_collection e w) as [[c|err] w1]
         | context [dispatch ?e ?b ?r ?w] =>
             pose proof (dispatch_keeps_collection e b r w) as Hdis;
             destruct (dispatch e b r w) as [resp w1]
         end.
  all: match type of Hstep with
       | Some ?x = Some _ =>
           match x with
           | context [set_thread _ ?t' _] => pose_tallies Hlk t'
           | _ => idtac
           end
       end.
  all: pose proof (tally_lookup (at_pc IAcquire) _ _ _ Hlk) as Hacq_pos.
  all: unfold b2n in *; simpl in *; simplify_eq/=.
  all: split; unfold standing; simpl; rewrite ?R, ?L, ?Hex, ?tally_app; simpl.
  all: try first
         [ lia | done | by (intros; repeat split; lia)
         | by (intros; apply Hcache; first [ by left | right; lia ])
         | by (intros ? [= <-]; split; [done | by apply Hacq_pos])
         | by (intros; eapply mk_is_Some, Hgcc)
         | by (intros; apply Hdis, Hcache; first [ by left | right; lia ]) ].
  all: try (intros [?|?]; [discriminate | exfalso; lia]).
Qed.

Lemma reachable_gate_inv env st s :
  steps env (boot st) s -> gate_inv s.
Proof.
  induction 1 as [|s1 s2 l _ IH Hstep]; [apply boot_gate_inv|].
  by eapply gate_inv_step.
Qed.

(** C6.  Once [rag_system_ready] is [True], it is [True] in every state the
    server reaches afterwards. *)
Theorem readiness_is_monotone env s s' :
  steps env s s' ->
  rag_system_ready s = true ->
  rag_system_ready s' = true.
Proof.
  induction 1 as [|s1 s2 l _ IH Hstep]; [done|].
  intros Hready. eapply step_ready_monotone; [exact Hstep | by apply IH].
Qed.

Lemma readiness_is_monotone_witness :
  let s := run Demo.env [Run 0; Run 0; Run 0; Run 0] (boot None) in
  let s' := run Demo.env
              [Arrive GET_status; Run 0; Arrive (POST_ask "Where did Alice go?");
               Run 1; Run 2; Run 2; Run 1; Arrive GET_status; Run 3] s in
  rag_system_ready s = true /\ rag_system_ready s' = true.
Proof.
  intros s s'. split; [vm_compute; reflexivity|].
  apply (readiness_is_monotone Demo.env s s').
  - apply steps_run.
  - vm_compute. reflexivity.
Defined.

Lemma acquired_at_most_once env st s :
  steps env (boot st) s -> occurrences SrvAcquire (log s) <= 1.
Proof.
  intros Hreach.
  destruct (reachable_gate_inv env st s Hreach)
    as [Hlock _ Hacq _ Hfail _ _ _ Hexit].
  unfold standing in *. rewrite Hacq, Hfail.
  destruct (rag_system_ready s); [lia|].
  assert (b2n (rag_init_lock s) <= 1) by (destruct (rag_init_lock s); simpl; lia).
  destruct (exited s) as [code|] eqn:Hex; [|lia].
  destruct (Hexit code eq_refl) as [_ Hpos]. lia.
Qed.

(** C7.  In every state the server reaches from its start, whatever the
    number of triggers and their interleaving: at most one thread is inside
    the lock-guarded block, the collection acquisition of
    [initialize_rag_system] has been performed at most once, and at most one
    initialization sequence has completed; as soon as any initialization
    thread has finished, exactly one sequence has completed; and a thread
    that takes the lock when the flag is set leaves without acquiring. *)
Theorem single_initialization env st s :
  steps env (boot st) s ->
  tally in_critical (threads s) <= 1
  /\ occurrences SrvAcquire (log s) <= 1
  /\ occurrences SrvInitReady (log s) <= 1
  /\ (forall i,
        threads s !! i = Some (InitThread IDone) ->
        occurrences SrvInitReady (log s) = 1
        /\ occurrences SrvAcquire (log s) = 1
        /\ rag_system_ready s = true)
  /\ (forall i,
        threads s !! i = Some (InitThread ICheckFlag) ->
        rag_system_ready s = true ->
        exists s',
          step env (Run i) s = Some s'
          /\ threads s' !! i = Some (InitThread IRelease)
          /\ log s' = log s /\ app s' = app s).
Proof.
  intros Hreach.
  destruct (reachable_gate_inv env st s Hreach)
    as [Hlock Hbegun Hacq Hcomp Hfail Hready Hnready Hcache Hexit].
  unfold standing in *.
  assert (Hcs : tally in_critical (threads s) <= 1).
  { rewrite tally_in_critical, Hlock. destruct (rag_init_lock s); simpl; lia. }
  split; [done|].
  assert (Hdone : forall i,
             threads s !! i = Some (InitThread IDone) ->
             rag_system_ready s = true).
  { intros i Hlk. destruct (rag_system_ready s) eqn:R; [done|].
    destruct (Hnready eq_refl) as (_ & Hd & _).
    pose proof (tally_lookup (at_pc IDone) _ _ _ Hlk eq_refl). lia. }
  pose proof (acquired_at_most_once env st s Hreach) as Hacq1.
  split; [done|]. split; [rewrite Hcomp; destruct (rag_system_ready s); simpl; lia|].
  split.
  - intros i Hlk. pose proof (Hdone i Hlk) as R.
    rewrite Hcomp, Hacq, R. done.
  - intros i Hlk R.
    destruct (Hready R) as (_ & _ & Hex).
    unfold step. rewrite Hex, Hlk. simpl. rewrite R.
    eexists. split; [reflexivity|]. simpl. split; [|done].
    apply list_lookup_insert_eq. by eapply lookup_lt_Some.
Qed.

Lemma single_initialization_witness :
  let s := run Demo.env
             [Arrive GET_status; Arrive (POST_ask "Where did Alice go?");
              Run 1; Run 2; Run 1; Run 2; Run 1; Run 2;
              Run 0; Run 3; Run 0; Run 4; Run 0; Run 0; Run 0;
              Run 3; Run 3; Run 3; Run 4; Run 4; Run 4; Run 1; Run 2]
             (boot None) in
  threads s !! 0 = Some (InitThread IDone)
  /\ threads s !! 3 = Some (InitThread IDone)
  /\ threads s !! 4 = Some (InitThread IDone)
  /\ occurrences SrvSpawn (log s) = 2
  /\ occurrences SrvAcquire (log s) = 1
  /\ occurrences SrvInitReady (log s) = 1.
Proof.
  intros s.
  destruct (single_initialization Demo.env None s (steps_run _ _ _))
    as (_ & _ & _ & Hdone & _).
  destruct (Hdone 0) as (H1 & H2 & _); [vm_compute; reflexivity|].
  repeat split; try exact H1; try exact H2; vm_compute; reflexivity.
Defined.

(** ** Failure of the initialization *)

Lemma exited_is_final env s s' :
  is_Some (exited s) -> steps env s s' -> s' = s.
Proof.
  intros [code Hex]. induction 1 as [|s1 s2 l _ IH Hstep]; [done|].
  subst s1. unfold step in Hstep. by rewrite Hex in Hstep.
Qed.

(** C8.  When [get_chroma_collection] raises inside
    [initialize_rag_system], the step ends the process with exit code 1 and
    leaves [rag_system_ready] as it was, which is [False] in every state
    reached from the start; nothing runs afterwards: no request is accepted
    and no thread takes a step. *)
Theorem initialization_failure_exits env s i e w' :
  exited s = None ->
  threads s !! i = Some (InitThread IAcquire) ->
  get_chroma_collection env (app s) = (Raise e, w') ->
  exists s',
    step env (Run i) s = Some s'
    /\ exited s' = Some 1
    /\ rag_system_ready s' = rag_system_ready s
    /\ (forall st, steps env (boot st) s -> rag_system_ready s' = false)
    /\ (forall l, step env l s' = None)
    /\ (forall s'', steps env s' s'' -> s'' = s').
Proof.
  intros Hex Hlk Hgcc. unfold step. rewrite Hex, Hlk. simpl. rewrite Hgcc.
  eexists. split; [reflexivity|]. simpl.
  split; [done|]. split; [done|]. split; [|split].
  - intros st Hreach.
    destruct (reachable_gate_inv env st s Hreach)
      as [_ _ _ _ _ Hready _ _ _].
    destruct (rag_system_ready s); [|done].
    destruct (Hready eq_refl) as (Hz & _).
    pose proof (tally_lookup (at_pc IAcquire) _ _ _ Hlk eq_refl) as Hpos.
    unfold standing in Hz. lia.
  - intros l. reflexivity.
  - intros s''. apply exited_is_final. by eexists.
Qed.

Lemma initialization_failure_exits_witness :
  let s := run Demo.env_file_missing [Run 0; Run 0] (boot None) in
  let s' := run Demo.env_file_missing [Run 0] s in
  exited s = None
  /\ exited s' = Some 1
  /\ rag_system_ready s' = false
  /\ run Demo.env_file_missing
       [Arrive GET_status; Run 0; Run 1; Arrive (POST_ask "hello")] s' = s'.
Proof.
  intros s s'.
  edestruct (initialization_failure_exits Demo.env_file_missing s 0)
    as (s1 & Hstep & Hexit & _ & Hnot & _ & Hfinal).
  { vm_compute. reflexivity. }
  { vm_compute. reflexivity. }
  { vm_compute. reflexivity. }
  assert (Hs' : s' = s1).
  { subst s'.
    change (default s (step Demo.env_file_missing (Run 0) s) = s1).
    by rewrite Hstep. }
  split; [vm_compute; reflexivity|]. rewrite Hs'.
  split; [exact Hexit|]. split; [apply (Hnot None), steps_run|].
  apply Hfinal, steps_run.
Defined.

(** ** The status route *)

(** While the flag is unset the [before_request] hook answers every request
    itself, whatever its route. *)
Lemma step_request env s i r pc :
  exited s = None ->
  threads s !! i = Some (RequestThread r pc) ->
  step env (Run i) s = request_step env i r pc s.
Proof. intros Hex Hlk. unfold step. by rewrite Hex, Hlk. Qed.

Lemma set_thread_lookup i t s :
  i < length (threads s) ->
  threads (set_thread i t s) !! i = Some t.
Proof. intros H. simpl. by apply list_lookup_insert_eq. Qed.

Lemma run_step env l ls s s1 :
  step env l s = Some s1 -> run env (l :: ls) s = run env ls s1.
Proof. intros H. unfold run. simpl. by rewrite H. Qed.

Lemma run_skip env l ls s :
  step env l s = None -> run env (l :: ls) s = run env ls s.
Proof. intros H. unfold run. simpl. by rewrite H. Qed.

Lemma rejected_while_initializing env s i r :
  exited s = None ->
  rag_system_ready s = false ->
  threads s !! i = Some (RequestThread r RBeforeRequest) ->
  threads (serve env i 4 s) !! i
  = Some (RequestThread r (RDone not_ready_response)).
Proof.
  intros Hex R Hlk.
  pose proof (lookup_lt_Some _ _ _ Hlk) as Hlen.
  unfold serve. cbn [replicate].
  set (s1 := set_thread i (RequestThread r RLockProbe) s).
  rewrite (run_step env _ _ s s1)
    by (rewrite (step_request env s i r _ Hex Hlk); simpl; by rewrite R).
  assert (H1 : threads s1 !! i = Some (RequestThread r RLockProbe))
    by (by apply set_thread_lookup).
  pose proof (lookup_lt_Some _ _ _ H1) as Hlen1.
  set (done := RequestThread r (RDone not_ready_response)).
  destruct (rag_init_lock s) eqn:L.
  - set (s2 := set_thread i (RequestThread r RReject) s1).
    rewrite (run_step env _ _ s1 s2)
      by (rewrite (step_request env s1 i r _ Hex H1); simpl; by rewrite L).
    assert (H2 : threads s2 !! i = Some (RequestThread r RReject))
      by (by apply set_thread_lookup).
    pose proof (lookup_lt_Some _ _ _ H2) as Hlen2.
    set (s3 := set_thread i done s2).
    rewrite (run_step env _ _ s2 s3)
      by (by rewrite (step_request env s2 i r _ Hex H2)).
    assert (H3 : threads s3 !! i = Some done)
      by (by apply set_thread_lookup).
    rewrite run_skip by (by rewrite (step_request env s3 i r _ Hex H3)).
    exact H3.
  - set (s2 := set_thread i (RequestThread r RSpawn) s1).
    rewrite (run_step env _ _ s1 s2)
      by (rewrite (step_request env s1 i r _ Hex H1); simpl; by rewrite L).
    assert (H2 : threads s2 !! i = Some (RequestThread r RSpawn))
      by (by apply set_thread_lookup).
    pose proof (lookup_lt_Some _ _ _ H2) as Hlen2.
    set (s3 := spawn (InitThread IWaitLock)
                 (set_thread i (RequestThread r RReject)
                    (record SrvSpawn s2))).
    rewrite (run_step env _ _ s2 s3)
      by (by rewrite (step_request env s2 i r _ Hex H2)).
    assert (H3 : threads s3 !! i = Some (RequestThread r RReject)).
    { subst s3. simpl. rewrite lookup_app_l by (by rewrite !length_insert).
      apply list_lookup_insert_eq. by rewrite !length_insert. }
    pose proof (lookup_lt_Some _ _ _ H3) as Hlen3.
    rewrite (run_step env _ _ s3 (set_thread i done s3))
      by (by rewrite (step_request env s3 i r _ Hex H3)).
    by apply set_thread_lookup.
Qed.

(** Past the start, a set flag means the collection is cached, and a view
    runs only once the flag is set: the "initializing" answer of the
    [status] view is never sent. *)
Lemma ready_implies_cached env st s :
  steps env (boot st) s ->
  rag_system_ready s = true ->
  is_Some (chroma_collection (app s)).
Proof.
  intros Hreach R. apply (inv_cached s (reachable_gate_inv env st s Hreach)).
  by left.
Qed.

Lemma view_runs_only_when_ready env st s i r :
  steps env (boot st) s ->
  threads s !! i = Some (RequestThread r RView) ->
  rag_system_ready s = true.
Proof.
  intros Hreach Hlk. destruct (rag_system_ready s) eqn:R; [done|].
  destruct (inv_not_ready s (reachable_gate_inv env st s Hreach) R)
    as (_ & _ & Hv).
  pose proof (tally_lookup at_view _ _ _ Hlk eq_refl). lia.
Qed.

(** C5 fails on the code: a [GET /status] request that arrives while the
    system is initializing is answered by the [before_request] hook with
    status 503 and a body without a "status" field; the [status] view, which
    would have answered "initializing", is not run. *)
Theorem status_request_rejected_while_initializing :
  let s := run Demo.env
             [Run 0; Run 0; Arrive GET_status; Run 1; Run 1; Run 1; Run 1]
             (boot None) in
  rag_system_ready s = false
  /\ threads s !! 1 = Some (RequestThread GET_status (RDone not_ready_response))
  /\ status_code not_ready_response = 503
  /\ json_get "status" (body not_ready_response) = None
  /\ json_get "status" (body (status false)) = Some "initializing".
Proof. vm_compute. repeat split. Qed.

(** ** The cached handles in the server process *)

Lemma filter_through (f g : event -> bool) (l1 l2 : list event) :
  (forall e, f e = true -> g e = true) ->
  filter g l1 = filter g l2 -> filter f l1 = filter f l2.
Proof.
  intros Hsub Heq.
  assert (Hff : forall l : list event, filter f (filter g l) = filter f l).
  { induction l as [|e l IH]; [done|]. rewrite !filter_cons.
    destruct (decide (g e)) as [Hg|Hg].
    - rewrite filter_cons. destruct (decide (f e)); by rewrite IH.
    - destruct (decide (f e)) as [Hf|]; [|done].
      exfalso. apply Hg, Is_true_true, Hsub. by apply Is_true_true. }
  by rewrite <- (Hff l1), <- (Hff l2), Heq.
Qed.

Lemma get_chroma_collection_opens env w :
  storage_opens (get_chroma_collection env w).2 <= S (storage_opens w).
Proof.
  unfold storage_opens, get_chroma_collection.
  destruct (chroma_collection w) eqn:E; [simpl; lia|].
  unfold index_if_empty, load_and_chunk_document. crush_run; lia.
Qed.

Lemma dispatch_is_call env ready r w :
  (dispatch env ready r w).2 = w
  \/ exists q, (dispatch env ready r w).2 = run_call env (CallAsk q) w.
Proof.
  unfold dispatch, ask. repeat case_match; simplify_eq/=; auto.
  all: right; eexists; simpl.
  all: match goal with
       | H : ask_rag_question _ _ _ = _ |- _ => by rewrite H
       end.
Qed.

Lemma dispatch_opens env ready r w :
  is_Some (chroma_collection w) ->
  storage_opens (dispatch env ready r w).2 = storage_opens w.
Proof.
  intros [c Hc].
  destruct (dispatch_is_call env ready r w) as [->|[q ->]]; [done|].
  destruct (run_call_frame env (CallAsk q) w c Hc) as (_ & _ & F).
  unfold storage_opens. f_equal.
  apply (filter_through is_open_event is_index_event); [|done].
  by intros [].
Qed.

Lemma opened_at_most_once_per_acquisition env st s :
  steps env (boot st) s ->
  storage_opens (app s) <= occurrences SrvAcquire (log s).
Proof.
  induction 1 as [|s1 s2 l Hreach IH Hstep]; [done|].
  pose proof (reachable_gate_inv env st s1 Hreach) as Hinv.
  unfold step in Hstep. destruct (exited s1); [done|].
  destruct l as [r|i]; [by simplify_eq/=|].
  destruct (threads s1 !! i) as [[pc|r pc]|] eqn:Hlk; [| |done].
  - destruct pc; simpl in Hstep; repeat case_match; simplify_eq/=; try lia.
    all: match goal with
         | H : get_chroma_collection ?e ?w = (_, ?w') |- _ =>
             pose proof (get_chroma_collection_opens e w) as Ho;
             rewrite H in Ho; simpl in Ho; lia
         end.
  - destruct pc; simpl in Hstep; repeat case_match; simplify_eq/=; try lia.
    pose proof (view_runs_only_when_ready env st s1 i r Hreach Hlk) as R.
    pose proof (ready_implies_cached env st s1 Hreach R) as Hc.
    pose proof (dispatch_opens env (rag_system_ready s1) r (app s1) Hc) as Ho.
    match goal with
    | H : dispatch _ _ _ _ = _ |- _ => rewrite H in Ho
    end.
    simpl in Ho. lia.
Qed.

(** C9, as stated, fails for [get_gemini_model]: nothing guards the test
    and the assignment of app.py:98-100, so two callers that both test the
    global before either assigns it each create a handle, and they return
    different handles. *)
Lemma overlapping_calls_create_two_models :
  let s := callers_run [0; 1; 0; 0; 1; 1]
             (mkCallers (Demo.ready_world Demo.env) [MTest; MTest]) in
  model_creations (shared s) = 2
  /\ callers s = [MDone (Some (mkModel 1 GEMINI_MODEL));
                  MDone (Some (mkModel 2 GEMINI_MODEL))].
Proof. vm_compute. split; reflexivity. Qed.

(** A caller that runs its three statements without another caller in
    between does what [get_gemini_model] does. *)
Lemma lone_caller_is_get_gemini_model w :
  exists m,
    get_gemini_model w = (Return m, (get_gemini_model w).2)
    /\ callers_run [0; 0; 0] (mkCallers w [MTest])
       = mkCallers (get_gemini_model w).2 [MDone (Some m)].
Proof.
  unfold callers_run, callers_step, get_gemini_model. simpl.
  destruct (gemini_model w) as [m|] eqn:E; simpl.
  - rewrite E. simpl. by exists m.
  - eexists. split; reflexivity.
Qed.

(** C9 (amended).  After a successful call of [get_chroma_collection],
    whatever calls into app.py follow, a further call returns the same handle
    and leaves the world as it is, and in between nothing was opened,
    counted, read or added; in the server process the storage is opened, and
    so the indexing decision taken, at most once.  For [get_gemini_model]
    the same holds as long as its calls do not overlap: a later call returns
    the cached handle, any sequence of calls creates the handle at most once,
    and a caller that runs undisturbed does exactly what the function
    does. *)
Theorem handles_are_cached_singletons env :
  (forall w c w1 ks,
      get_chroma_collection env w = (Return c, w1) ->
      let w2 := run_calls env ks w1 in
      get_chroma_collection env w2 = (Return c, w2)
      /\ filter is_index_event (trace w2) = filter is_index_event (trace w1))
  /\ (forall w m w1 ks,
        get_gemini_model w = (Return m, w1) ->
        let w2 := run_calls env ks w1 in
        get_gemini_model w2 = (Return m, w2)
        /\ filter is_model_event (trace w2)
           = filter is_model_event (trace w1))
  /\ (forall st ks,
        model_creations (run_calls env ks (fresh_process st)) <= 1)
  /\ (forall st s,
        steps env (boot st) s -> storage_opens (app s) <= 1)
  /\ (forall w,
        exists m,
          get_gemini_model w = (Return m, (get_gemini_model w).2)
          /\ callers_run [0; 0; 0] (mkCallers w [MTest])
             = mkCallers (get_gemini_model w).2 [MDone (Some m)]).
Proof.
  assert (Hmodel : forall st ks,
             model_creations (run_calls env ks (fresh_process st)) <= 1).
  { intros st ks.
    pose proof (run_calls_model_created_once env ks (fresh_process st)) as H.
    unfold model_created_once in H. unfold model_creations.
    rewrite H by done. clear H. case_match; lia. }
  split; [|split; [|split; [exact Hmodel|split]]].
  - intros w c w1 ks Hret w2.
    pose proof (get_chroma_collection_Return env _ _ _ Hret) as Hc.
    destruct (run_calls_frame env ks w1 c Hc) as (F1 & _ & F3).
    split; [|done]. by apply get_chroma_collection_cached.
  - intros w m w1 ks Hret w2.
    pose proof (get_gemini_model_Return _ _ _ Hret) as Hm.
    destruct (run_calls_model_frame env ks w1 m Hm) as (F1 & F2).
    split; [|done]. by apply get_gemini_model_cached.
  - intros st s Hreach.
    pose proof (opened_at_most_once_per_acquisition env st s Hreach).
    pose proof (acquired_at_most_once env st s Hreach). lia.
  - apply lone_caller_is_get_gemini_model.
Qed.

Lemma handles_are_cached_singletons_witness :
  let w1 := Demo.ready_world Demo.env in
  let w2 := run_calls Demo.env
              [CallAsk "Where did Alice go?"; CallGetModel;
               CallAsk "Who stayed home?"] w1 in
  get_chroma_collection Demo.env w2
  = (Return (mkCollection 0 COLLECTION_NAME), w2).
Proof.
  intros w1 w2.
  destruct (handles_are_cached_singletons Demo.env) as (Hc & _).
  edestruct (Hc (fresh_process None)) as [Hsame _]; [|exact Hsame].
  vm_compute. reflexivity.
Defined.




(** * Further properties of app.py *)

(** ** Retrieval *)

(** X1.  On an existing collection [retrieve_relevant_documents] raises when
    the store refuses the query or the query cannot be embedded; otherwise it
    returns the first ranked list, and the empty list when the answer carries
    no list at all. *)
Theorem retrieve_relevant_documents_cases env q c n w s :
  storage w = Some s ->
  (forall msg,
      ext_storage env OpQuery = Err msg ->
      (retrieve_relevant_documents env q c n w).1
      = Raise (StorageError OpQuery msg))
  /\ (forall msg,
        ext_storage env OpQuery = Ok tt ->
        ext_embed env [q] = Err msg ->
        (retrieve_relevant_documents env q c n w).1
        = Raise (EmbeddingError msg))
  /\ (ext_storage env OpQuery = Ok tt ->
      ext_embed env [q] = Ok tt ->
      (forall first rest,
          ext_rank env s q n = Some (first :: rest) ->
          (retrieve_relevant_documents env q c n w).1 = Return first)
      /\ (ext_rank env s q n = None \/ ext_rank env s q n = Some [] ->
          (retrieve_relevant_documents env q c n w).1 = Return [])).
Proof.
  intros Hs. unfold retrieve_relevant_documents.
  split; [|split].
  - intros msg H. crush_run.
  - intros msg H1 H2. crush_run.
  - intros H1 H2. split.
    + intros first rest H. crush_run.
    + intros [H|H]; crush_run.
Qed.

Lemma retrieve_relevant_documents_cases_witness :
  (retrieve_relevant_documents Demo.env "Where did Alice go?"
     (mkCollection 0 COLLECTION_NAME) 1 (Demo.ready_world Demo.env)).1
  = Return ["Alice went to the market."].
Proof.
  edestruct (retrieve_relevant_documents_cases Demo.env "Where did Alice go?"
               (mkCollection 0 COLLECTION_NAME) 1 (Demo.ready_world Demo.env))
    as (_ & _ & Hok).
  { vm_compute. reflexivity. }
  destruct Hok as [Hfirst _]; [reflexivity | reflexivity |].
  eapply Hfirst. vm_compute. reflexivity.
Defined.

(** ** Acquisition *)

(** X2.  When [get_chroma_collection] raises, nothing was cached before and
    nothing is cached after, the model handle is untouched, and the store
    holds no chunk it did not hold before: at most the collection was
    created, empty. *)
Theorem failed_acquisition_caches_nothing env w e w' :
  get_chroma_collection env w = (Raise e, w') ->
  chroma_collection w = None
  /\ chroma_collection w' = None
  /\ gemini_model w' = gemini_model w
  /\ (storage w' = storage w \/ storage w = None /\ storage w' = Some []).
Proof.
  unfold get_chroma_collection.
  destruct (chroma_collection w) eqn:E; [done|].
  unfold index_if_empty, load_and_chunk_document. intros H.
  crush_run; repeat split; auto.
Qed.

Lemma failed_acquisition_caches_nothing_witness :
  let w' := (get_chroma_collection Demo.env_file_missing (fresh_process None)).2 in
  chroma_collection w' = None /\ storage w' = Some [].
Proof.
  intros w'.
  edestruct (failed_acquisition_caches_nothing Demo.env_file_missing
               (fresh_process None)) as (_ & Hc & _ & _).
  { vm_compute. reflexivity. }
  split; [exact Hc | vm_compute; reflexivity].
Defined.

(** X3.  On an absent or empty collection, with the store and the file
    system answering and a corpus that splits into no chunk, the acquisition
    returns and caches a handle, the collection exists and is empty, and
    nothing was added: the calls made are exactly the six up to the split. *)
Theorem empty_corpus_leaves_collection_empty env w text :
  chroma_collection w = None ->
  storage w = None \/ storage w = Some [] ->
  (forall op, ext_storage env op = Ok tt) ->
  ext_read_file env KNOWLEDGE_FILE = Ok text ->
  ext_split_text env text CHUNK_SIZE CHUNK_OVERLAP = [] ->
  exists c w',
    get_chroma_collection env w = (Return c, w')
    /\ chroma_collection w' = Some c
    /\ storage w' = Some []
    /\ trace w'
       = ([EvSplit CHUNK_SIZE CHUNK_OVERLAP; EvReadFile KNOWLEDGE_FILE;
          EvCount; EvGetOrCreate COLLECTION_NAME;
          EvPersistentClient CHROMA_DB_PATH; EvEmbeddingFunction]
         ++ trace w)%list.
Proof.
  intros Hc Hst Hup Hread Hsplit.
  unfold get_chroma_collection. rewrite Hc.
  unfold index_if_empty, load_and_chunk_document.
  unfold_chroma. unfold_monad. simpl.
  rewrite !Hup. simpl.
  destruct Hst as [Hst|Hst]; rewrite Hst; simpl;
    rewrite Hread; simpl; rewrite Hsplit; simpl;
    eexists _, _; repeat split.
Qed.

Lemma empty_corpus_leaves_collection_empty_witness :
  storage (get_chroma_collection Cases.env_empty_corpus (fresh_process None)).2
  = Some [].
Proof.
  destruct (empty_corpus_leaves_collection_empty Cases.env_empty_corpus
              (fresh_process None) EmptyString
              eq_refl (or_introl eq_refl) (fun _ => eq_refl) eq_refl eq_refl)
    as (c & w' & Hrun & _ & Hst & _).
  rewrite Hrun. exact Hst.
Defined.

(** X4.  On an absent or empty collection, with every service answering and
    a corpus that splits into at least one chunk, the acquisition returns and
    caches a handle, and the collection then holds exactly the chunks of the
    splitter, in their order, under doc_0, doc_1, ... *)
Theorem first_acquisition_indexes_corpus env w text :
  chroma_collection w = None ->
  storage w = None \/ storage w = Some [] ->
  (forall op, ext_storage env op = Ok tt) ->
  ext_read_file env KNOWLEDGE_FILE = Ok text ->
  let chunks := ext_split_text env text CHUNK_SIZE CHUNK_OVERLAP in
  chunks <> [] ->
  ext_embed env chunks = Ok tt ->
  exists c w',
    get_chroma_collection env w = (Return c, w')
    /\ chroma_collection w' = Some c
    /\ storage w' = Some (zip (doc_ids (length chunks)) chunks)
    /\ snd <$> zip (doc_ids (length chunks)) chunks = chunks
    /\ fst <$> zip (doc_ids (length chunks)) chunks = doc_ids (length chunks)
    /\ chunk_count w' = length chunks.
Proof.
  intros Hc Hst Hup Hread chunks Hne Hembed.
  assert (Hlen : length (doc_ids (length chunks)) = length chunks)
    by apply doc_ids_spec.
  assert (Ht : Py.truthy_list chunks = true) by (by destruct chunks).
  assert (Hrest :
            snd <$> zip (doc_ids (length chunks)) chunks = chunks
            /\ fst <$> zip (doc_ids (length chunks)) chunks
               = doc_ids (length chunks)
            /\ length (zip (doc_ids (length chunks)) chunks) = length chunks).
  { split; [apply snd_zip; lia|]. split; [apply fst_zip; lia|].
    rewrite length_zip_with. lia. }
  destruct Hrest as (R1 & R2 & R3). subst chunks.
  unfold get_chroma_collection. rewrite Hc.
  unfold index_if_empty, load_and_chunk_document.
  unfold_chroma. unfold_monad. simpl.
  rewrite !Hup. simpl.
  destruct Hst as [Hst|Hst]; rewrite Hst; simpl;
    rewrite Hread; simpl; rewrite Ht, ?Hup; simpl; rewrite Hembed; simpl;
    eexists _, _; (split; [reflexivity|]); simpl;
    repeat split; auto.
Qed.

Lemma first_acquisition_indexes_corpus_witness :
  storage (get_chroma_collection Demo.env (fresh_process None)).2
  = Some [("doc_0", "Alice went to the market."); ("doc_1", "Bob stayed home.")].
Proof.
  assert (Hne : ext_split_text Demo.env Demo.corpus CHUNK_SIZE CHUNK_OVERLAP
                <> []) by (vm_compute; discriminate).
  destruct (first_acquisition_indexes_corpus Demo.env (fresh_process None)
              Demo.corpus eq_refl (or_introl eq_refl) (fun _ => eq_refl)
              eq_refl Hne eq_refl)
    as (c & w' & Hrun & _ & Hst & _).
  rewrite Hrun. simpl. rewrite Hst. vm_compute. reflexivity.
Defined.


(** X16.  A process started on a collection that already holds chunks needs
    neither the corpus file nor the embedding provider to acquire it: if the
    store answers, the acquisition returns and caches a handle after opening
    the storage and counting twice, whether or not the file can be read. *)
Theorem restart_needs_no_corpus env w s :
  storage w = Some s -> s <> [] ->
  (forall op, ext_storage env op = Ok tt) ->
  exists c w',
    get_chroma_collection env (restart w) = (Return c, w')
    /\ chroma_collection w' = Some c
    /\ storage w' = Some s
    /\ trace w'
       = [EvCount; EvCount; EvGetOrCreate COLLECTION_NAME;
          EvPersistentClient CHROMA_DB_PATH; EvEmbeddingFunction].
Proof.
  intros Hs Hne Hup.
  unfold get_chroma_collection, restart, fresh_process. simpl.
  unfold index_if_empty, load_and_chunk_document.
  unfold_chroma. unfold_monad. simpl.
  rewrite ?Hup, ?Hs. simpl. rewrite ?Hup, ?Hs. simpl.
  destruct s as [|x s']; [done|]. simpl. rewrite ?Hup, ?Hs. simpl.
  rewrite ?Hup, ?Hs. simpl.
  eexists _, _. repeat split.
Qed.

Lemma restart_needs_no_corpus_witness :
  let w := Demo.ready_world Demo.env in
  trace (get_chroma_collection Demo.env_file_missing (restart w)).2
  = [EvCount; EvCount; EvGetOrCreate COLLECTION_NAME;
     EvPersistentClient CHROMA_DB_PATH; EvEmbeddingFunction].
Proof.
  intros w.
  assert (Hne : [("doc_0", "Alice went to the market.");
                 ("doc_1", "Bob stayed home.")] <> [])
    by discriminate.
  destruct (restart_needs_no_corpus Demo.env_file_missing w _
              eq_refl Hne (fun _ => eq_refl))
    as (c & w' & Hrun & _ & _ & Htrace).
  rewrite Hrun. exact Htrace.
Defined.


(** ** The store only grows *)

Lemma get_chroma_collection_appends env w s :
  storage w = Some s ->
  exists extra, storage (get_chroma_collection env w).2 = Some (s ++ extra)%list.
Proof.
  intros Hs. unfold get_chroma_collection.
  destruct (chroma_collection w) eqn:E.
  { exists []. by rewrite app_nil_r. }
  unfold index_if_empty, load_and_chunk_document.
  crush_run; try (exists []; by rewrite app_nil_r); by eexists.
Qed.

(** X5.  Whatever calls are made into app.py, the chunks the collection
    holds stay where they are: the store afterwards is the store before,
    followed by what was added. *)
Theorem store_is_append_only env ks w s :
  storage w = Some s ->
  exists extra, storage (run_calls env ks w) = Some (s ++ extra)%list.
Proof.
  intros Hs.
  apply (run_call_preserves env
           (fun w' => exists extra, storage w' = Some (s ++ extra)%list)).
  - intros w1 [extra H1].
    destruct (get_chroma_collection_appends env w1 _ H1) as [extra' H2].
    exists (extra ++ extra')%list. by rewrite H2, app_assoc.
  - intros w1 [extra H1]. exists extra.
    by destruct (get_gemini_model_frame w1) as (_ & -> & _).
  - intros q c n w1 [extra H1]. exists extra.
    by destruct (retrieve_frame env q c n w1) as (_ & _ & -> & _).
  - intros p r w1 [extra H1]. by exists extra.
  - exists []. by rewrite app_nil_r.
Qed.

Lemma store_is_append_only_witness :
  exists extra,
    storage (run_calls Demo.env
               [CallGetCollection; CallAsk "Where did Alice go?"]
               (mkWorld None None (Some [("doc_0", "An older chunk.")]) 0 []))
    = Some ([("doc_0", "An older chunk.")] ++ extra)%list.
Proof. by apply store_is_append_only. Defined.

(** ** The script entry *)

(** X12.  The [__main__] block of app.py never lets an exception out, and
    when the acquisition raises it stops there: nothing is counted, no model
    handle is created and no query is sent. *)
Theorem main_stops_at_failed_acquisition env w :
  (main env w).1 = Return tt
  /\ (forall e w1,
        get_chroma_collection env w = (Raise e, w1) ->
        (main env w).2 = w1).
Proof.
  unfold main, try_except. split.
  - repeat case_match; simplify_eq/=; [|done].
    by match goal with a : unit |- _ => destruct a end.
  - intros e w1 H. unfold bind at 1. by rewrite H.
Qed.

Lemma main_stops_at_failed_acquisition_witness :
  trace (main Demo.env_file_missing (fresh_process None)).2
  = [EvReadFile KNOWLEDGE_FILE; EvCount; EvGetOrCreate COLLECTION_NAME;
     EvPersistentClient CHROMA_DB_PATH; EvEmbeddingFunction].
Proof.
  destruct (main_stops_at_failed_acquisition Demo.env_file_missing
              (fresh_process None)) as [_ Hstop].
  erewrite Hstop; [|vm_compute; reflexivity]. reflexivity.
Defined.


(** * Further properties of api_server.py *)

(** ** The ask view *)

(** X6.  What the response of the [ask] view tells: a 400 means that the
    pipeline was not called and app.py's state is untouched; a 200 means that
    the request carried a non-empty query, that [ask_rag_question] returned
    on it, and that the "answer" field is the returned text; no other code
    than 200, 400 and 500 is produced. *)
Theorem ask_view_response_tells env r w :
  (status_code (ask env r w).1 = 400 -> (ask env r w).2 = w)
  /\ (status_code (ask env r w).1 = 200 ->
      exists q text,
        req_json r = Some (Some q) /\ q <> EmptyString
        /\ ask_rag_question env q w = (Return text, (ask env r w).2)
        /\ body (ask env r w).1 = [("answer", text)])
  /\ (status_code (ask env r w).1 = 200
      \/ status_code (ask env r w).1 = 400
      \/ status_code (ask env r w).1 = 500).
Proof.
  unfold ask.
  destruct (req_json r) as [[[|a q]|]|] eqn:Hj; simpl.
  1, 3, 4: repeat split; auto; discriminate.
  destruct (ask_rag_question env (String a q) w) as [[text|e] w'] eqn:Hask;
    simpl; repeat split; auto; try discriminate.
  intros _. by exists (String a q), text.
Qed.

Lemma ask_view_response_tells_witness :
  exists q text,
    req_json (POST_ask "Where did Alice go?") = Some (Some q)
    /\ q <> EmptyString
    /\ ask_rag_question Demo.env q (Demo.ready_world Demo.env)
       = (Return text,
          (ask Demo.env (POST_ask "Where did Alice go?")
             (Demo.ready_world Demo.env)).2)
    /\ body (ask Demo.env (POST_ask "Where did Alice go?")
               (Demo.ready_world Demo.env)).1
       = [("answer", text)].
Proof.
  destruct (ask_view_response_tells Demo.env (POST_ask "Where did Alice go?")
              (Demo.ready_world Demo.env)) as (_ & H200 & _).
  apply H200. vm_compute. reflexivity.
Defined.

(** ** Requests after readiness *)

Lemma serve_add env i a b s :
  serve env i (a + b) s = serve env i b (serve env i a s).
Proof.
  unfold serve, run. by rewrite replicate_add, foldl_app.
Qed.

Lemma serve_done env i n s r resp :
  threads s !! i = Some (RequestThread r (RDone resp)) ->
  serve env i n s = s.
Proof.
  intros Hlk. induction n as [|n IH]; [done|].
  unfold serve. cbn [replicate]. rewrite run_skip; [exact IH|].
  unfold step. destruct (exited s); [done|]. by rewrite Hlk.
Qed.

Lemma served_in_two_steps env s i r :
  exited s = None ->
  rag_system_ready s = true ->
  threads s !! i = Some (RequestThread r RBeforeRequest) ->
  serve env i 2 s
  = set_thread i (RequestThread r (RDone (dispatch env true r (app s)).1))
      (set_app (dispatch env true r (app s)).2
         (set_thread i (RequestThread r RView) s)).
Proof.
  intros Hex R Hlk.
  pose proof (lookup_lt_Some _ _ _ Hlk) as Hlen.
  unfold serve. cbn [replicate].
  set (s1 := set_thread i (RequestThread r RView) s).
  rewrite (run_step env _ _ s s1)
    by (rewrite (step_request env s i r _ Hex Hlk); simpl; by rewrite R).
  assert (H1 : threads s1 !! i = Some (RequestThread r RView))
    by (by apply set_thread_lookup).
  rewrite (run_step env _ _ s1
             (set_thread i
                (RequestThread r (RDone (dispatch env true r (app s)).1))
                (set_app (dispatch env true r (app s)).2 s1))).
  - reflexivity.
  - rewrite (step_request env s1 i r _ Hex H1). simpl. rewrite R.
    by destruct (dispatch env true r (app s)).
Qed.

(** X8.  Once the flag is set, a request passes the hook and is answered by
    its view: two statements after it arrived, its response is the one of the
    view and app.py's state is the one the view left; for [GET /status] this
    is the "ready" answer, with app.py's state untouched. *)
Theorem ready_request_reaches_view env s i r :
  exited s = None ->
  rag_system_ready s = true ->
  threads s !! i = Some (RequestThread r RBeforeRequest) ->
  let s' := serve env i 2 s in
  threads s' !! i
  = Some (RequestThread r (RDone (dispatch env true r (app s)).1))
  /\ app s' = (dispatch env true r (app s)).2
  /\ rag_system_ready s' = true
  /\ dispatch env true GET_status (app s) = (status_ready_response, app s).
Proof.
  intros Hex R Hlk s'. subst s'.
  rewrite (served_in_two_steps env s i r Hex R Hlk).
  split; [|by repeat split].
  apply set_thread_lookup. simpl. rewrite length_insert.
  by eapply lookup_lt_Some.
Qed.

Lemma ready_request_reaches_view_witness :
  let s := run Demo.env
             [Run 0; Run 0; Run 0; Run 0; Run 0;
              Arrive (POST_ask "Where did Alice go?")] (boot None) in
  threads (serve Demo.env 1 2 s) !! 1
  = Some (RequestThread (POST_ask "Where did Alice go?")
            (RDone (mkResponse 200 [("answer", "Alice went to the market.")]))).
Proof.
  intros s.
  destruct (ready_request_reaches_view Demo.env s 1
              (POST_ask "Where did Alice go?") eq_refl eq_refl eq_refl)
    as (Hresp & _).
  rewrite Hresp. vm_compute. reflexivity.
Defined.

(** ** Progress of the initialization *)

Lemma step_init env s i pc :
  exited s = None ->
  threads s !! i = Some (InitThread pc) ->
  step env (Run i) s = init_step env i pc s.
Proof. intros Hex Hlk. unfold step. by rewrite Hex, Hlk. Qed.

(** X9.  With the lock free and the flag unset, an initialization thread
    that waits for the lock and runs undisturbed reaches the end of
    [initialize_rag_system] in five statements, provided the acquisition
    returns: the flag is then set, the lock is free again, the process is
    alive, and app.py's state is the one the acquisition left. *)
Theorem initialization_completes env s i c w' :
  exited s = None ->
  rag_system_ready s = false ->
  rag_init_lock s = false ->
  threads s !! i = Some (InitThread IWaitLock) ->
  get_chroma_collection env (app s) = (Return c, w') ->
  let s' := serve env i 5 s in
  rag_system_ready s' = true
  /\ rag_init_lock s' = false
  /\ exited s' = None
  /\ threads s' !! i = Some (InitThread IDone)
  /\ app s' = w'
  /\ log s' = SrvInitReady :: SrvAcquire :: SrvInitBegin :: log s.
Proof.
  intros Hex R L Hlk Hgcc s'. subst s'.
  pose proof (lookup_lt_Some _ _ _ Hlk) as Hlen.
  unfold serve. cbn [replicate].
  set (s1 := set_thread i (InitThread ICheckFlag) (set_lock true s)).
  rewrite (run_step env _ _ s s1)
    by (rewrite (step_init env s i _ Hex Hlk); simpl; by rewrite L).
  assert (H1 : threads s1 !! i = Some (InitThread ICheckFlag))
    by (by apply set_thread_lookup).
  pose proof (lookup_lt_Some _ _ _ H1) as Hlen1.
  set (s2 := set_thread i (InitThread IAcquire) (record SrvInitBegin s1)).
  rewrite (run_step env _ _ s1 s2)
    by (rewrite (step_init env s1 i _ Hex H1); simpl; by rewrite R).
  assert (H2 : threads s2 !! i = Some (InitThread IAcquire))
    by (by apply set_thread_lookup).
  pose proof (lookup_lt_Some _ _ _ H2) as Hlen2.
  set (s3 := set_thread i (InitThread ISetReady)
               (set_app w' (record SrvAcquire s2))).
  rewrite (run_step env _ _ s2 s3)
    by (rewrite (step_init env s2 i _ Hex H2); simpl; by rewrite Hgcc).
  assert (H3 : threads s3 !! i = Some (InitThread ISetReady))
    by (by apply set_thread_lookup).
  pose proof (lookup_lt_Some _ _ _ H3) as Hlen3.
  set (s4 := set_thread i (InitThread IRelease)
               (record SrvInitReady (set_ready s3))).
  rewrite (run_step env _ _ s3 s4)
    by (by rewrite (step_init env s3 i _ Hex H3)).
  assert (H4 : threads s4 !! i = Some (InitThread IRelease))
    by (by apply set_thread_lookup).
  pose proof (lookup_lt_Some _ _ _ H4) as Hlen4.
  rewrite (run_step env _ _ s4
             (set_thread i (InitThread IDone) (set_lock false s4)))
    by (by rewrite (step_init env s4 i _ Hex H4)).
  unfold run. cbn [foldl].
  repeat split; try done. by apply set_thread_lookup.
Qed.

Lemma initialization_completes_witness :
  let s' := serve Demo.env 0 5 (boot None) in
  rag_system_ready s' = true /\ rag_init_lock s' = false
  /\ threads s' !! 0 = Some (InitThread IDone).
Proof.
  intros s'.
  edestruct (initialization_completes Demo.env (boot None) 0)
    as (H1 & H2 & _ & H4 & _);
    [reflexivity | reflexivity | reflexivity | reflexivity
    | vm_compute; reflexivity |].
  by repeat split.
Defined.


(** ** Requests before readiness *)

(** X7.  A request that arrives while the flag is unset, whatever its route
    and body, is answered 503 by the hook within four statements; app.py is
    not entered, and at most one initialization thread is started on its
    behalf, none if the lock is taken. *)
Theorem request_before_readiness_is_rejected env s i r :
  exited s = None ->
  rag_system_ready s = false ->
  threads s !! i = Some (RequestThread r RBeforeRequest) ->
  let s' := serve env i 4 s in
  threads s' !! i = Some (RequestThread r (RDone not_ready_response))
  /\ app s' = app s
  /\ rag_system_ready s' = false
  /\ threads s'
     = (<[i := RequestThread r (RDone not_ready_response)]> (threads s)
        ++ if rag_init_lock s then [] else [InitThread IWaitLock])%list.
Proof.
  intros Hex R Hlk s'.
  pose proof (lookup_lt_Some _ _ _ Hlk) as Hlen.
  split; [by apply rejected_while_initializing|].
  subst s'. unfold serve. cbn [replicate].
  set (s1 := set_thread i (RequestThread r RLockProbe) s).
  rewrite (run_step env _ _ s s1)
    by (rewrite (step_request env s i r _ Hex Hlk); simpl; by rewrite R).
  assert (H1 : threads s1 !! i = Some (RequestThread r RLockProbe))
    by (by apply set_thread_lookup).
  pose proof (lookup_lt_Some _ _ _ H1) as Hlen1.
  set (done := RequestThread r (RDone not_ready_response)).
  destruct (rag_init_lock s) eqn:L.
  - set (s2 := set_thread i (RequestThread r RReject) s1).
    rewrite (run_step env _ _ s1 s2)
      by (rewrite (step_request env s1 i r _ Hex H1); simpl; by rewrite L).
    assert (H2 : threads s2 !! i = Some (RequestThread r RReject))
      by (by apply set_thread_lookup).
    pose proof (lookup_lt_Some _ _ _ H2) as Hlen2.
    set (s3 := set_thread i done s2).
    rewrite (run_step env _ _ s2 s3)
      by (by rewrite (step_request env s2 i r _ Hex H2)).
    assert (H3 : threads s3 !! i = Some done)
      by (by apply set_thread_lookup).
    rewrite run_skip by (by rewrite (step_request env s3 i r _ Hex H3)).
    unfold run. simpl. repeat split; try done.
    by rewrite app_nil_r, !list_insert_insert_eq.
  - set (s2 := set_thread i (RequestThread r RSpawn) s1).
    rewrite (run_step env _ _ s1 s2)
      by (rewrite (step_request env s1 i r _ Hex H1); simpl; by rewrite L).
    assert (H2 : threads s2 !! i = Some (RequestThread r RSpawn))
      by (by apply set_thread_lookup).
    pose proof (lookup_lt_Some _ _ _ H2) as Hlen2.
    set (s3 := spawn (InitThread IWaitLock)
                 (set_thread i (RequestThread r RReject)
                    (record SrvSpawn s2))).
    rewrite (run_step env _ _ s2 s3)
      by (by rewrite (step_request env s2 i r _ Hex H2)).
    assert (H3 : threads s3 !! i = Some (RequestThread r RReject)).
    { subst s3. simpl. rewrite lookup_app_l by (by rewrite !length_insert).
      apply list_lookup_insert_eq. by rewrite !length_insert. }
    pose proof (lookup_lt_Some _ _ _ H3) as Hlen3.
    rewrite (run_step env _ _ s3 (set_thread i done s3))
      by (by rewrite (step_request env s3 i r _ Hex H3)).
    unfold run. simpl. repeat split; try done.
    rewrite insert_app_l by (by rewrite !length_insert).
    by rewrite !list_insert_insert_eq.
Qed.

Lemma request_before_readiness_is_rejected_witness :
  let s := run Demo.env [Arrive (POST_ask "Where did Alice go?")] (boot None) in
  threads (serve Demo.env 1 4 s) !! 1
  = Some (RequestThread (POST_ask "Where did Alice go?")
            (RDone not_ready_response))
  /\ app (serve Demo.env 1 4 s) = fresh_process None.
Proof.
  intros s.
  destruct (request_before_readiness_is_rejected Demo.env s 1
              (POST_ask "Where did Alice go?") eq_refl eq_refl eq_refl)
    as (H1 & H2 & _).
  split; [exact H1 | exact H2].
Defined.

(** ** The lock *)

Lemma tally_positive f (l : list thread) :
  0 < tally f l -> exists i t, l !! i = Some t /\ f t = true.
Proof.
  induction l as [|x l IH]; simpl; [lia|].
  destruct (f x) eqn:Hf.
  - intros _. by exists 0, x.
  - intros H. destruct IH as (i & t & Hlk & Ht); [lia|].
    by exists (S i), t.
Qed.

(** X10.  In every state the server reaches, [rag_init_lock] is held exactly
    when some thread is inside the [with] block of [initialize_rag_system];
    and while the process is alive such a thread can always take its next
    step, so a held lock never blocks the waiting threads for good. *)
Theorem lock_is_held_by_a_running_thread env st s :
  steps env (boot st) s ->
  (rag_init_lock s = true
   <-> exists i t, threads s !! i = Some t /\ in_critical t = true)
  /\ (exited s = None ->
      forall i t,
        threads s !! i = Some t -> in_critical t = true ->
        is_Some (step env (Run i) s)).
Proof.
  intros Hreach.
  pose proof (inv_lock s (reachable_gate_inv env st s Hreach)) as Hlock.
  unfold standing in Hlock. rewrite <- tally_in_critical in Hlock.
  split; [split|].
  - intros L. apply tally_positive. rewrite Hlock, L. simpl. lia.
  - intros (i & t & Hlk & Ht).
    pose proof (tally_lookup in_critical _ _ _ Hlk Ht) as Hpos.
    rewrite Hlock in Hpos. destruct (rag_init_lock s); [done|].
    simpl in Hpos. lia.
  - intros Hex i t Hlk Ht. unfold step. rewrite Hex, Hlk.
    destruct t as [[]|]; simpl in Ht; try discriminate; simpl;
      repeat case_match; by eexists.
Qed.

Lemma lock_is_held_by_a_running_thread_witness :
  let s := run Demo.env [Run 0; Run 0] (boot None) in
  rag_init_lock s = true /\ is_Some (step Demo.env (Run 0) s).
Proof.
  intros s.
  destruct (lock_is_held_by_a_running_thread Demo.env None s
              (steps_run _ _ _)) as [[_ Hheld] Hrun].
  split.
  - apply Hheld. exists 0, (InitThread IAcquire). by vm_compute.
  - apply (Hrun eq_refl 0 (InitThread IAcquire)); by vm_compute.
Defined.

(** ** Nothing is answered before readiness *)

Lemma get_chroma_collection_answer_events env w :
  filter is_answer_event (trace (get_chroma_collection env w).2)
  = filter is_answer_event (trace w).
Proof.
  unfold get_chroma_collection.
  destruct (chroma_collection w) eqn:E; [done|].
  unfold index_if_empty, load_and_chunk_document. crush_run.
Qed.

Lemma unanswered_before_readiness env st s :
  steps env (boot st) s ->
  rag_system_ready s = false ->
  tally answered (threads s) = 0
  /\ filter is_answer_event (trace (app s)) = [].
Proof.
  induction 1 as [|s1 s2 l Hreach IH Hstep]; [done|].
  intros R2.
  assert (R1 : rag_system_ready s1 = false).
  { destruct (rag_system_ready s1) eqn:R1; [|done].
    by rewrite (step_ready_monotone env l s1 s2 Hstep R1) in R2. }
  destruct (IH R1) as [Ht Hq]. clear IH.
  unfold step in Hstep. destruct (exited s1); [done|].
  destruct l as [r|i].
  { simplify_eq/=. rewrite tally_app. simpl. split; [lia|done]. }
  destruct (threads s1 !! i) as [[pc|r pc]|] eqn:Hlk; [| |done].
  - destruct pc; simpl in Hstep; repeat case_match; simplify_eq/=.
    all: try match goal with
         | |- context [<[_ := ?t']> (threads _)] =>
             pose proof (tally_insert answered _ _ _ t' Hlk) as Hins;
             simpl in Hins
         end.
    all: split; [unfold b2n in *; lia|]; try done.
    all: match goal with
         | H : get_chroma_collection ?e ?w = (_, ?w') |- _ =>
             pose proof (get_chroma_collection_answer_events e w) as Ha;
             rewrite H in Ha; simpl in Ha; by rewrite Ha
         end.
  - destruct pc; simpl in Hstep; rewrite ?R1 in Hstep;
      repeat case_match; simplify_eq/=.
    all: try (pose proof (view_runs_only_when_ready env st s1 i r Hreach Hlk);
              congruence).
    all: try match goal with
         | |- context [<[_ := ?t']> (threads _)] =>
             pose proof (tally_insert answered _ _ _ t' Hlk) as Hins;
             simpl in Hins
         end.
    all: rewrite ?tally_app; simpl.
    all: split; [unfold b2n in *; lia|]; try done.
Qed.

(** X11.  While the flag is unset, in every state the server reaches, each
    request answered so far got the 503 rejection of the hook, and neither
    the store was queried nor the model created or called. *)
Theorem nothing_is_answered_before_readiness env st s :
  steps env (boot st) s ->
  rag_system_ready s = false ->
  (forall i r resp,
      threads s !! i = Some (RequestThread r (RDone resp)) ->
      resp = not_ready_response)
  /\ filter is_answer_event (trace (app s)) = [].
Proof.
  intros Hreach R.
  destruct (unanswered_before_readiness env st s Hreach R) as [Ht Hq].
  split; [|done]. intros i r resp Hlk.
  destruct (decide (resp = not_ready_response)) as [|Hne]; [done|].
  assert (Ha : answered (RequestThread r (RDone resp)) = true).
  { simpl. by rewrite bool_decide_eq_false_2. }
  pose proof (tally_lookup answered _ _ _ Hlk Ha). lia.
Qed.

Lemma nothing_is_answered_before_readiness_witness :
  let s := run Demo.env
             [Arrive (POST_ask "Where did Alice go?"); Run 0; Run 0; Run 1;
              Run 1; Run 0; Run 1; Run 1] (boot None) in
  threads s !! 1
  = Some (RequestThread (POST_ask "Where did Alice go?")
            (RDone not_ready_response))
  /\ filter is_answer_event (trace (app s)) = [].
Proof.
  intros s.
  destruct (nothing_is_answered_before_readiness Demo.env None s
              (steps_run _ _ _) eq_refl) as [Hresp Hq].
  split; [|exact Hq].
  assert (Hlk : exists resp,
             threads s !! 1
             = Some (RequestThread (POST_ask "Where did Alice go?")
                       (RDone resp)))
    by (eexists; vm_compute; reflexivity).
  destruct Hlk as [resp Hlk]. by rewrite Hlk, (Hresp _ _ _ Hlk).
Defined.


(** * ui_app.py against the server *)

(** X13.  The body of [check_rag_status_api], run on the answer the server
    gives to a [GET /status] request, returns the value the readiness flag
    had when the request arrived: [True] from the "ready" answer of the view,
    [False] from the 503 of the hook. *)
Theorem status_poll_tells_readiness env s i :
  exited s = None ->
  threads s !! i = Some (RequestThread GET_status RBeforeRequest) ->
  exists resp,
    threads (serve env i 4 s) !! i
    = Some (RequestThread GET_status (RDone resp))
    /\ check_rag_status_api_body (HttpResponse resp) = rag_system_ready s.
Proof.
  intros Hex Hlk. destruct (rag_system_ready s) eqn:R.
  - exists status_ready_response. split; [|done].
    destruct (ready_request_reaches_view env s i GET_status Hex R Hlk)
      as (Hresp & _).
    change 4 with (2 + 2). rewrite serve_add.
    by rewrite (serve_done env i 2 _ _ _ Hresp).
  - exists not_ready_response. split; [|done].
    by apply (request_before_readiness_is_rejected env s i GET_status).
Qed.

Lemma status_poll_tells_readiness_witness :
  let s := run Demo.env [Run 0; Run 0; Arrive GET_status] (boot None) in
  exists resp,
    threads (serve Demo.env 1 4 s) !! 1
    = Some (RequestThread GET_status (RDone resp))
    /\ check_rag_status_api_body (HttpResponse resp) = false.
Proof.
  intros s.
  exact (status_poll_tells_readiness Demo.env s 1 eq_refl eq_refl).
Defined.

(** X14.  The first status poll decides for good.  With no cached entry, if
    the first poll fails (the server is still initializing, or cannot be
    reached), [wait_for_rag_ready] never leaves its loop, whatever the
    server answers later, because later polls are answered from the cache;
    if it succeeds, the loop ends at once with [rag_ready] set.  Either way
    at most one request is sent. *)
Theorem first_poll_decides net u :
  status_cache u = None ->
  let first := check_rag_status_api_body (net (requests_sent u)) in
  (first = false -> forall fuel, wait_for_rag_ready net fuel u = None)
  /\ (first = true ->
      forall fuel,
        wait_for_rag_ready net (S fuel) u
        = Some (mkUi (Some true) (S (requests_sent u)) true))
  /\ (forall k,
        requests_sent (Nat.iter k (fun v => (check_rag_status_api net v).2) u)
        <= S (requests_sent u)).
Proof.
  intros Hc first.
  assert (Hcached : forall fuel v,
             status_cache v = Some false ->
             wait_for_rag_ready net fuel v = None).
  { induction fuel as [|fuel IH]; intros v Hv; [done|].
    simpl. unfold check_rag_status_api. rewrite Hv. by apply IH. }
  split; [|split].
  - intros Hf [|fuel]; [done|]. simpl. unfold check_rag_status_api.
    rewrite Hc. fold first. rewrite Hf. by apply Hcached.
  - intros Ht fuel. simpl. unfold check_rag_status_api.
    rewrite Hc. fold first. by rewrite Ht.
  - intros k. destruct k as [|k]; [simpl; lia|].
    assert (Hk : forall k v,
               is_Some (status_cache v) ->
               Nat.iter k (fun v => (check_rag_status_api net v).2) v = v).
    { clear. induction k as [|k IH]; intros v [b Hv]; [done|].
      simpl. rewrite IH by by eexists.
      unfold check_rag_status_api. by rewrite Hv. }
    rewrite Nat.iter_succ_r. rewrite Hk.
    + unfold check_rag_status_api. rewrite Hc. simpl. lia.
    + unfold check_rag_status_api. rewrite Hc. simpl. by eexists.
Qed.

Lemma first_poll_decides_witness :
  let net := fun k : nat =>
               match k with
               | 0 => HttpResponse not_ready_response
               | _ => HttpResponse status_ready_response
               end in
  wait_for_rag_ready net 1000 ui_start = None.
Proof.
  intros net.
  destruct (first_poll_decides net ui_start eq_refl) as (Hloop & _).
  by apply Hloop.
Defined.

(** X15.  What [get_rag_response] hands to the chat, for the answer the
    server gives to [POST /ask] with the field [query]: once the server is
    ready and the query is not empty, the text [ask_rag_question] returned,
    unchanged; "An API error occurred." when the query is empty, when
    [ask_rag_question] raised, or when the server is still initializing. *)
Theorem chat_shows_pipeline_text env q w :
  get_rag_response (HttpResponse (dispatch env true (POST_ask q) w).1)
  = match q, (ask_rag_question env q w).1 with
    | String _ _, Return text => text
    | _, _ => "An API error occurred."
    end
  /\ get_rag_response (HttpResponse not_ready_response)
     = "An API error occurred.".
Proof.
  split; [|done]. unfold dispatch, ask. simpl.
  destruct q as [|a q]; [done|].
  by destruct (ask_rag_question env (String a q) w) as [[text|e] w'].
Qed.
